(** * The ON CONFLICT clause builders of [src/query-builder/on-conflict-builder.ts]

    The three builder classes are embedded over an explicit object store:
    every [new], every object literal and every node clone allocates a cell,
    [freeze] marks a cell read-only, and a method is a computation in a
    state-and-exception monad over that store.  Collaborators that live in
    other files of the repository (the filter parsers, the update-object
    parser) are taken as an interface. *)

From stdpp Require Import base list option strings.

(** ** Operation nodes *)

(** Modelled from the spec: [IdentifierNode.create] is not part of the
    sources at hand; a named constraint is "a single identifier". *)
Inductive IdentifierNode := IdentifierNode_create (name : string).

(** Modelled from the spec: [ColumnNode.create] is not part of the sources at
    hand; the column list is an "ordered sequence of column identifiers". *)
Inductive ColumnNode := ColumnNode_create (column : string).

(** The node an [AnyRawBuilder] hands out: "a pre-built opaque expression". *)
Inductive OperationNode := RawNode (sql : string).

(** [AnyRawBuilder]: the only thing the builder does with it is to call its
    [toOperationNode()]. *)
Record AnyRawBuilder := { RawBuilder_toOperationNode : OperationNode }.

(** Modelled from the spec: the predicate tree ("immutable boolean-expression
    node combining comparisons, reference-to-reference comparisons, and
    correlated existence checks via AND/OR").  Leaves are produced by the
    external parsers and are opaque here. *)
Inductive PredicateTree (Atom : Type) :=
| FilterNode (a : Atom)
| AndNode (l r : PredicateTree Atom)
| OrNode (l r : PredicateTree Atom).
Arguments FilterNode {Atom} a.
Arguments AndNode {Atom} l r.
Arguments OrNode {Atom} l r.

(** Modelled from the spec: the Predicate Composer, "and(tree, new) /
    or(tree, new), each returning a new tree; joining onto an absent tree
    yields the new predicate unchanged", and joining onto an existing
    predicate "wraps both in a conjunction" (resp. disjunction). *)
Definition Predicate_and {Atom} (tree : option (PredicateTree Atom))
    (new : PredicateTree Atom) : PredicateTree Atom :=
  match tree with
  | Some t => AndNode t new
  | None => new
  end.

Definition Predicate_or {Atom} (tree : option (PredicateTree Atom))
    (new : PredicateTree Atom) : PredicateTree Atom :=
  match tree with
  | Some t => OrNode t new
  | None => new
  end.

(** ** Exceptions *)

Inductive exn :=
| TypeError (message : string)   (* raised by the JS runtime itself *)
| Error (message : string).      (* raised by a collaborator *)

Inductive result (A : Type) :=
| Ok (a : A)
| Throw (e : exn).
Arguments Ok {A} a.
Arguments Throw {A} e.

(** ** The external collaborators

    [parseWhereFilter], [parseReferenceFilter], [parseExistFilter],
    [parseNotExistFilter] (filter-parser.js) and [parseUpdateObject]
    (update-set-parser.js) are imported by the builder and not defined in it.
    TypeScript types are erased at run time, so caller-supplied filter
    arguments all have the one type [any].  A parser either returns a node or
    throws. *)
Class Parsers := {
  ParseContext : Type;
  any : Type;
  Atom : Type;
  ColumnUpdateNode : Type;
  parseWhereFilter : ParseContext → list any → result (PredicateTree Atom);
  parseReferenceFilter :
    ParseContext → any → any → any → result (PredicateTree Atom);
  parseExistFilter : ParseContext → any → result (PredicateTree Atom);
  parseNotExistFilter : ParseContext → any → result (PredicateTree Atom);
  parseUpdateObject : ParseContext → any → result (list ColumnUpdateNode);
}.

(** Object references are store locations. *)
Abbreviation loc := nat (only parsing).

Section Builders.
Context `{P : Parsers}.

(** ** The conflict descriptor: [OnConflictNode]

    The keys [columns], [constraint], [indexExpression], [doNothing] and
    [updates] are the ones the builder passes to [OnConflictNode.cloneWith];
    [indexWhere] and [updateWhere] are the two predicate slots written by
    [cloneWithIndexWhere] / [cloneWithUpdateWhere] (the spec's indexPredicate
    and updatePredicate).  [None] is an absent key. *)
Record OnConflictNode := {
  columns : option (list ColumnNode);
  constraint : option IdentifierNode;
  indexExpression : option OperationNode;
  indexWhere : option (PredicateTree Atom);
  updates : option (list ColumnUpdateNode);
  updateWhere : option (PredicateTree Atom);
  doNothing : option bool;
}.

(** The argument of [cloneWith] is a partial node: the keys to replace. *)
Definition OnConflictNodeProps := OnConflictNode.

(** The object literal [{}] seen as a partial node. *)
Definition no_props : OnConflictNodeProps :=
  {| columns := None; constraint := None; indexExpression := None;
     indexWhere := None; updates := None; updateWhere := None;
     doNothing := None |}.

Definition set_columns (v : option (list ColumnNode)) (n : OnConflictNode) :=
  {| columns := v; constraint := constraint n;
     indexExpression := indexExpression n; indexWhere := indexWhere n;
     updates := updates n; updateWhere := updateWhere n;
     doNothing := doNothing n |}.

Definition set_constraint (v : option IdentifierNode) (n : OnConflictNode) :=
  {| columns := columns n; constraint := v;
     indexExpression := indexExpression n; indexWhere := indexWhere n;
     updates := updates n; updateWhere := updateWhere n;
     doNothing := doNothing n |}.

Definition set_indexExpression (v : option OperationNode) (n : OnConflictNode) :=
  {| columns := columns n; constraint := constraint n;
     indexExpression := v; indexWhere := indexWhere n;
     updates := updates n; updateWhere := updateWhere n;
     doNothing := doNothing n |}.

Definition set_indexWhere (v : option (PredicateTree Atom)) (n : OnConflictNode) :=
  {| columns := columns n; constraint := constraint n;
     indexExpression := indexExpression n; indexWhere := v;
     updates := updates n; updateWhere := updateWhere n;
     doNothing := doNothing n |}.

Definition set_updates (v : option (list ColumnUpdateNode)) (n : OnConflictNode) :=
  {| columns := columns n; constraint := constraint n;
     indexExpression := indexExpression n; indexWhere := indexWhere n;
     updates := v; updateWhere := updateWhere n;
     doNothing := doNothing n |}.

Definition set_updateWhere (v : option (PredicateTree Atom)) (n : OnConflictNode) :=
  {| columns := columns n; constraint := constraint n;
     indexExpression := indexExpression n; indexWhere := indexWhere n;
     updates := updates n; updateWhere := v;
     doNothing := doNothing n |}.

Definition set_doNothing (v : option bool) (n : OnConflictNode) :=
  {| columns := columns n; constraint := constraint n;
     indexExpression := indexExpression n; indexWhere := indexWhere n;
     updates := updates n; updateWhere := updateWhere n;
     doNothing := v |}.

(** One key of [{...node, ...props}]: the later spread wins where it has the
    key. *)
Definition spread_key {A} (later earlier : option A) : option A :=
  match later with
  | Some v => Some v
  | None => earlier
  end.

(** [{...node, ...props}]. *)
Definition spread (node : OnConflictNode) (props : OnConflictNodeProps)
    : OnConflictNode :=
  {| columns := spread_key (columns props) (columns node);
     constraint := spread_key (constraint props) (constraint node);
     indexExpression :=
       spread_key (indexExpression props) (indexExpression node);
     indexWhere := spread_key (indexWhere props) (indexWhere node);
     updates := spread_key (updates props) (updates node);
     updateWhere := spread_key (updateWhere props) (updateWhere node);
     doNothing := spread_key (doNothing props) (doNothing node) |}.

(** Modelled from the spec: the [Action] variant of the data model, read off
    the descriptor's [doNothing] / [updates] / [updateWhere] keys; nothing in
    the sources at hand computes it. *)
Inductive Action :=
| Undecided
| Ignore
| Update (valueMapping : list ColumnUpdateNode)
         (updatePredicate : option (PredicateTree Atom)).

Definition action (n : OnConflictNode) : Action :=
  match doNothing n with
  | Some true => Ignore
  | _ =>
      match updates n with
      | Some m => Update m (updateWhere n)
      | None => Undecided
      end
  end.

(** ** The object store *)

Inductive BuilderClass :=
| OnConflictBuilderClass
| OnConflictDoNothingBuilderClass
| OnConflictUpdateBuilderClass.

#[export] Instance BuilderClass_eq_dec : EqDecision BuilderClass.
Proof. solve_decision. Defined.

(** [interface OnConflictBuilderProps]; the node is held by reference. *)
Record OnConflictBuilderProps := {
  onConflictNode : loc;
  parseContext : ParseContext;
}.

Inductive object :=
| NodeObj (n : OnConflictNode)
| PropsObj (p : OnConflictBuilderProps)
| BuilderObj (c : BuilderClass) (props : loc).   (* the private [#props] *)

Record cell := Cell { frozen : bool; value : object }.

Abbreviation heap := (list cell) (only parsing).

(** ** The monad of builder code: state plus exceptions *)

Definition M (A : Type) : Type := heap → result A * heap.

#[export] Instance M_ret : MRet M := λ A a h, (Ok a, h).

#[export] Instance M_bind : MBind M := λ A B k m h,
  match m h with
  | (Ok a, h') => k a h'
  | (Throw e, h') => (Throw e, h')
  end.

Definition throw {A} (e : exn) : M A := λ h, (Throw e, h).

(** Lifting the outcome of a collaborator that does not touch the store. *)
Definition lift {A} (r : result A) : M A := λ h, (r, h).

(** An object literal or [new]: a fresh, not yet frozen object. *)
Definition alloc (o : object) : M loc :=
  λ h, (Ok (length h), h ++ [Cell false o]).

(** [freeze] of object-utils.js: makes the object read-only in place and
    returns the same reference. *)
Definition freeze (l : loc) : M loc := λ h,
  match h !! l with
  | Some c => (Ok l, <[l := Cell true (value c)]> h)
  | None => (Throw (TypeError "not an object"), h)
  end.

Definition read (l : loc) : M object := λ h,
  match h !! l with
  | Some c => (Ok (value c), h)
  | None => (Throw (TypeError "not an object"), h)
  end.

Definition read_node (l : loc) : M OnConflictNode :=
  o ← read l;
  match o with
  | NodeObj n => mret n
  | _ => throw (TypeError "not an OnConflictNode")
  end.

(** [this.#props] inside a method of class [c]: reading a private field of an
    object that is not an instance of the class is a [TypeError]. *)
Definition this_props (c : BuilderClass) (this : loc) : M OnConflictBuilderProps :=
  o ← read this;
  match o with
  | BuilderObj c' p =>
      if decide (c' = c) then
        po ← read p;
        match po with
        | PropsObj props => mret props
        | _ => throw (TypeError "not a props object")
        end
      else throw (TypeError "cannot read private member #props")
  | _ => throw (TypeError "cannot read private member #props")
  end.

(** ** [OnConflictNode]'s own functions (on-conflict-node.js) *)

(** Modelled from the spec: [OnConflictNode.create] is not part of the
    sources at hand; "a ConflictDescriptor is created empty by the enclosing
    statement builder". *)
Definition OnConflictNode_create : M loc :=
  n ← alloc (NodeObj no_props);
  freeze n.

(** Modelled from the spec: [OnConflictNode.cloneWith] is not part of the
    sources at hand; "every operation below replaces the whole descriptor
    with a new value holding the delta", the prior value "remaining valid",
    and a key the delta does not name is carried over ("does not clear a
    previously populated ColumnList"). *)
Definition OnConflictNode_cloneWith (node : loc) (props : OnConflictNodeProps)
    : M loc :=
  n ← read_node node;
  n' ← alloc (NodeObj (spread n props));
  freeze n'.

(** Modelled from the spec: [OnConflictNode.cloneWithIndexWhere] is not part
    of the sources at hand; the fragment is AND-joined "onto indexPredicate"
    by the Predicate Composer. *)
Definition OnConflictNode_cloneWithIndexWhere (node : loc)
    (filter : PredicateTree Atom) : M loc :=
  n ← read_node node;
  n' ← alloc (NodeObj
         (set_indexWhere (Some (Predicate_and (indexWhere n) filter)) n));
  freeze n'.

(** Modelled from the spec: [OnConflictNode.cloneWithIndexOrWhere], the
    OR-joining counterpart. *)
Definition OnConflictNode_cloneWithIndexOrWhere (node : loc)
    (filter : PredicateTree Atom) : M loc :=
  n ← read_node node;
  n' ← alloc (NodeObj
         (set_indexWhere (Some (Predicate_or (indexWhere n) filter)) n));
  freeze n'.

(** Modelled from the spec: [OnConflictNode.cloneWithUpdateWhere] is not part
    of the sources at hand; the "same eight-method predicate surface ... but
    targeting action.updatePredicate rather than indexPredicate". *)
Definition OnConflictNode_cloneWithUpdateWhere (node : loc)
    (filter : PredicateTree Atom) : M loc :=
  n ← read_node node;
  n' ← alloc (NodeObj
         (set_updateWhere (Some (Predicate_and (updateWhere n) filter)) n));
  freeze n'.

(** Modelled from the spec: [OnConflictNode.cloneWithUpdateOrWhere], the
    OR-joining counterpart. *)
Definition OnConflictNode_cloneWithUpdateOrWhere (node : loc)
    (filter : PredicateTree Atom) : M loc :=
  n ← read_node node;
  n' ← alloc (NodeObj
         (set_updateWhere (Some (Predicate_or (updateWhere n) filter)) n));
  freeze n'.

(** ** The three constructors

    Each is [this.#props = freeze(props)]: the props object the caller
    passed is frozen in place and the new instance refers to it. *)
Definition new_OnConflictBuilder (props : loc) : M loc :=
  p ← freeze props;
  alloc (BuilderObj OnConflictBuilderClass p).

Definition new_OnConflictDoNothingBuilder (props : loc) : M loc :=
  p ← freeze props;
  alloc (BuilderObj OnConflictDoNothingBuilderClass p).

Definition new_OnConflictUpdateBuilder (props : loc) : M loc :=
  p ← freeze props;
  alloc (BuilderObj OnConflictUpdateBuilderClass p).

(** The object literal [{ ...this.#props, onConflictNode: node }]. *)
Definition props_with (props : OnConflictBuilderProps) (node : loc) : M loc :=
  alloc (PropsObj {| onConflictNode := node;
                     parseContext := parseContext props |}).
(** ** [class OnConflictBuilder] *)

Definition OnConflictBuilder_column (this : loc) (column : string) : M loc :=
  let columnNode := ColumnNode_create column in
  props ← this_props OnConflictBuilderClass this;
  node ← read_node (onConflictNode props);
  n ← OnConflictNode_cloneWith (onConflictNode props)
        (set_columns
           (Some match columns node with
                 | Some cs => cs ++ [columnNode]
                 | None => [columnNode]
                 end) no_props);
  p ← props_with props n;
  new_OnConflictBuilder p.

(** [columns.map(ColumnNode.create)]: the callback is taken to look at its
    first argument only. *)
Definition OnConflictBuilder_columns (this : loc) (columns' : list string)
    : M loc :=
  let columnNodes := map ColumnNode_create columns' in
  props ← this_props OnConflictBuilderClass this;
  node ← read_node (onConflictNode props);
  n ← OnConflictNode_cloneWith (onConflictNode props)
        (set_columns
           (Some match columns node with
                 | Some cs => cs ++ columnNodes
                 | None => columnNodes
                 end) no_props);
  p ← props_with props n;
  new_OnConflictBuilder p.

Definition OnConflictBuilder_constraint (this : loc) (constraintName : string)
    : M loc :=
  props ← this_props OnConflictBuilderClass this;
  n ← OnConflictNode_cloneWith (onConflictNode props)
        (set_constraint (Some (IdentifierNode_create constraintName)) no_props);
  p ← props_with props n;
  new_OnConflictBuilder p.

Definition OnConflictBuilder_expression (this : loc) (expression : AnyRawBuilder)
    : M loc :=
  props ← this_props OnConflictBuilderClass this;
  n ← OnConflictNode_cloneWith (onConflictNode props)
        (set_indexExpression
           (Some (RawBuilder_toOperationNode expression)) no_props);
  p ← props_with props n;
  new_OnConflictBuilder p.

Definition OnConflictBuilder_where (this : loc) (args : list any) : M loc :=
  props ← this_props OnConflictBuilderClass this;
  filter ← lift (parseWhereFilter (parseContext props) args);
  n ← OnConflictNode_cloneWithIndexWhere (onConflictNode props) filter;
  p ← props_with props n;
  new_OnConflictBuilder p.

Definition OnConflictBuilder_whereRef (this : loc) (lhs op rhs : any) : M loc :=
  props ← this_props OnConflictBuilderClass this;
  filter ← lift (parseReferenceFilter (parseContext props) lhs op rhs);
  n ← OnConflictNode_cloneWithIndexWhere (onConflictNode props) filter;
  p ← props_with props n;
  new_OnConflictBuilder p.

Definition OnConflictBuilder_orWhere (this : loc) (args : list any) : M loc :=
  props ← this_props OnConflictBuilderClass this;
  filter ← lift (parseWhereFilter (parseContext props) args);
  n ← OnConflictNode_cloneWithIndexOrWhere (onConflictNode props) filter;
  p ← props_with props n;
  new_OnConflictBuilder p.

Definition OnConflictBuilder_orWhereRef (this : loc) (lhs op rhs : any)
    : M loc :=
  props ← this_props OnConflictBuilderClass this;
  filter ← lift (parseReferenceFilter (parseContext props) lhs op rhs);
  n ← OnConflictNode_cloneWithIndexOrWhere (onConflictNode props) filter;
  p ← props_with props n;
  new_OnConflictBuilder p.

Definition OnConflictBuilder_whereExists (this : loc) (arg : any) : M loc :=
  props ← this_props OnConflictBuilderClass this;
  filter ← lift (parseExistFilter (parseContext props) arg);
  n ← OnConflictNode_cloneWithIndexWhere (onConflictNode props) filter;
  p ← props_with props n;
  new_OnConflictBuilder p.

Definition OnConflictBuilder_whereNotExists (this : loc) (arg : any) : M loc :=
  props ← this_props OnConflictBuilderClass this;
  filter ← lift (parseNotExistFilter (parseContext props) arg);
  n ← OnConflictNode_cloneWithIndexWhere (onConflictNode props) filter;
  p ← props_with props n;
  new_OnConflictBuilder p.

Definition OnConflictBuilder_orWhereExists (this : loc) (arg : any) : M loc :=
  props ← this_props OnConflictBuilderClass this;
  filter ← lift (parseExistFilter (parseContext props) arg);
  n ← OnConflictNode_cloneWithIndexOrWhere (onConflictNode props) filter;
  p ← props_with props n;
  new_OnConflictBuilder p.

Definition OnConflictBuilder_orWhereNotExists (this : loc) (arg : any)
    : M loc :=
  props ← this_props OnConflictBuilderClass this;
  filter ← lift (parseNotExistFilter (parseContext props) arg);
  n ← OnConflictNode_cloneWithIndexOrWhere (onConflictNode props) filter;
  p ← props_with props n;
  new_OnConflictBuilder p.

Definition OnConflictBuilder_doNothing (this : loc) : M loc :=
  props ← this_props OnConflictBuilderClass this;
  n ← OnConflictNode_cloneWith (onConflictNode props)
        (set_doNothing (Some true) no_props);
  p ← props_with props n;
  new_OnConflictDoNothingBuilder p.

Definition OnConflictBuilder_doUpdateSet (this : loc) (updates' : any)
    : M loc :=
  props ← this_props OnConflictBuilderClass this;
  us ← lift (parseUpdateObject (parseContext props) updates');
  n ← OnConflictNode_cloneWith (onConflictNode props)
        (set_updates (Some us) no_props);
  p ← props_with props n;
  new_OnConflictUpdateBuilder p.

(** ** [class OnConflictDoNothingBuilder] *)

Definition OnConflictDoNothingBuilder_toOperationNode (this : loc) : M loc :=
  props ← this_props OnConflictDoNothingBuilderClass this;
  mret (onConflictNode props).

(** ** [class OnConflictUpdateBuilder] *)

Definition OnConflictUpdateBuilder_where (this : loc) (args : list any)
    : M loc :=
  props ← this_props OnConflictUpdateBuilderClass this;
  filter ← lift (parseWhereFilter (parseContext props) args);
  n ← OnConflictNode_cloneWithUpdateWhere (onConflictNode props) filter;
  p ← props_with props n;
  new_OnConflictUpdateBuilder p.

Definition OnConflictUpdateBuilder_whereRef (this : loc) (lhs op rhs : any)
    : M loc :=
  props ← this_props OnConflictUpdateBuilderClass this;
  filter ← lift (parseReferenceFilter (parseContext props) lhs op rhs);
  n ← OnConflictNode_cloneWithUpdateWhere (onConflictNode props) filter;
  p ← props_with props n;
  new_OnConflictUpdateBuilder p.

Definition OnConflictUpdateBuilder_orWhere (this : loc) (args : list any)
    : M loc :=
  props ← this_props OnConflictUpdateBuilderClass this;
  filter ← lift (parseWhereFilter (parseContext props) args);
  n ← OnConflictNode_cloneWithUpdateOrWhere (onConflictNode props) filter;
  p ← props_with props n;
  new_OnConflictUpdateBuilder p.

Definition OnConflictUpdateBuilder_orWhereRef (this : loc) (lhs op rhs : any)
    : M loc :=
  props ← this_props OnConflictUpdateBuilderClass this;
  filter ← lift (parseReferenceFilter (parseContext props) lhs op rhs);
  n ← OnConflictNode_cloneWithUpdateOrWhere (onConflictNode props) filter;
  p ← props_with props n;
  new_OnConflictUpdateBuilder p.

Definition OnConflictUpdateBuilder_whereExists (this : loc) (arg : any)
    : M loc :=
  props ← this_props OnConflictUpdateBuilderClass this;
  filter ← lift (parseExistFilter (parseContext props) arg);
  n ← OnConflictNode_cloneWithUpdateWhere (onConflictNode props) filter;
  p ← props_with props n;
  new_OnConflictUpdateBuilder p.

Definition OnConflictUpdateBuilder_whereNotExists (this : loc) (arg : any)
    : M loc :=
  props ← this_props OnConflictUpdateBuilderClass this;
  filter ← lift (parseNotExistFilter (parseContext props) arg);
  n ← OnConflictNode_cloneWithUpdateWhere (onConflictNode props) filter;
  p ← props_with props n;
  new_OnConflictUpdateBuilder p.

Definition OnConflictUpdateBuilder_orWhereExists (this : loc) (arg : any)
    : M loc :=
  props ← this_props OnConflictUpdateBuilderClass this;
  filter ← lift (parseExistFilter (parseContext props) arg);
  n ← OnConflictNode_cloneWithUpdateOrWhere (onConflictNode props) filter;
  p ← props_with props n;
  new_OnConflictUpdateBuilder p.

Definition OnConflictUpdateBuilder_orWhereNotExists (this : loc) (arg : any)
    : M loc :=
  props ← this_props OnConflictUpdateBuilderClass this;
  filter ← lift (parseNotExistFilter (parseContext props) arg);
  n ← OnConflictNode_cloneWithUpdateOrWhere (onConflictNode props) filter;
  p ← props_with props n;
  new_OnConflictUpdateBuilder p.

Definition OnConflictUpdateBuilder_toOperationNode (this : loc) : M loc :=
  props ← this_props OnConflictUpdateBuilderClass this;
  mret (onConflictNode props).
(** ** Method calls

    A call [receiver.m(args)] looks [m] up in the receiver's class; a name
    the class does not define is [undefined], and calling it is a
    [TypeError] that no method body gets to run before. *)
Inductive Call :=
| call_column (column : string)
| call_columns (columns' : list string)
| call_constraint (constraintName : string)
| call_expression (expression : AnyRawBuilder)
| call_where (args : list any)
| call_whereRef (lhs op rhs : any)
| call_orWhere (args : list any)
| call_orWhereRef (lhs op rhs : any)
| call_whereExists (arg : any)
| call_whereNotExists (arg : any)
| call_orWhereExists (arg : any)
| call_orWhereNotExists (arg : any)
| call_doNothing
| call_doUpdateSet (updates' : any)
| call_toOperationNode.

Definition not_a_function {A} : M A := throw (TypeError "is not a function").

(** The method table of each class: what the property lookup [receiver.m]
    finds, with the call's arguments already supplied. *)
Definition method (cls : BuilderClass) (c : Call) : option (loc → M loc) :=
  match cls with
  | OnConflictBuilderClass =>
      match c with
      | call_column column =>
          Some (λ this, OnConflictBuilder_column this column)
      | call_columns cs => Some (λ this, OnConflictBuilder_columns this cs)
      | call_constraint name =>
          Some (λ this, OnConflictBuilder_constraint this name)
      | call_expression e =>
          Some (λ this, OnConflictBuilder_expression this e)
      | call_where args => Some (λ this, OnConflictBuilder_where this args)
      | call_whereRef lhs op rhs =>
          Some (λ this, OnConflictBuilder_whereRef this lhs op rhs)
      | call_orWhere args => Some (λ this, OnConflictBuilder_orWhere this args)
      | call_orWhereRef lhs op rhs =>
          Some (λ this, OnConflictBuilder_orWhereRef this lhs op rhs)
      | call_whereExists arg =>
          Some (λ this, OnConflictBuilder_whereExists this arg)
      | call_whereNotExists arg =>
          Some (λ this, OnConflictBuilder_whereNotExists this arg)
      | call_orWhereExists arg =>
          Some (λ this, OnConflictBuilder_orWhereExists this arg)
      | call_orWhereNotExists arg =>
          Some (λ this, OnConflictBuilder_orWhereNotExists this arg)
      | call_doNothing => Some OnConflictBuilder_doNothing
      | call_doUpdateSet us =>
          Some (λ this, OnConflictBuilder_doUpdateSet this us)
      | call_toOperationNode => None
      end
  | OnConflictDoNothingBuilderClass =>
      match c with
      | call_toOperationNode => Some OnConflictDoNothingBuilder_toOperationNode
      | _ => None
      end
  | OnConflictUpdateBuilderClass =>
      match c with
      | call_where args =>
          Some (λ this, OnConflictUpdateBuilder_where this args)
      | call_whereRef lhs op rhs =>
          Some (λ this, OnConflictUpdateBuilder_whereRef this lhs op rhs)
      | call_orWhere args =>
          Some (λ this, OnConflictUpdateBuilder_orWhere this args)
      | call_orWhereRef lhs op rhs =>
          Some (λ this, OnConflictUpdateBuilder_orWhereRef this lhs op rhs)
      | call_whereExists arg =>
          Some (λ this, OnConflictUpdateBuilder_whereExists this arg)
      | call_whereNotExists arg =>
          Some (λ this, OnConflictUpdateBuilder_whereNotExists this arg)
      | call_orWhereExists arg =>
          Some (λ this, OnConflictUpdateBuilder_orWhereExists this arg)
      | call_orWhereNotExists arg =>
          Some (λ this, OnConflictUpdateBuilder_orWhereNotExists this arg)
      | call_toOperationNode => Some OnConflictUpdateBuilder_toOperationNode
      | _ => None
      end
  end.

Definition invoke (this : loc) (c : Call) : M loc :=
  o ← read this;
  match o with
  | BuilderObj cls _ =>
      match method cls c with
      | Some m => m this
      | None => not_a_function
      end
  | _ => not_a_function
  end.

(** A method chain [this.c1(..).c2(..) ...]: each call is made on the value
    the previous one returned. *)
Fixpoint chain (this : loc) (cs : list Call) : M loc :=
  match cs with
  | [] => mret this
  | c :: cs' => b ← invoke this c; chain b cs'
  end.

(** Modelled from the spec: how the enclosing insert builder (not part of the
    sources at hand) starts conflict handling, "a ConflictDescriptor is
    created empty by the enclosing statement builder", wrapped in a Conflict
    Target Builder. *)
Definition target (ctx : ParseContext) : M loc :=
  n ← OnConflictNode_create;
  p ← alloc (PropsObj {| onConflictNode := n; parseContext := ctx |});
  new_OnConflictBuilder p.

(** ** Reading the store *)

Definition object_at (h : heap) (l : loc) : option object :=
  value <$> h !! l.

Definition node_at (h : heap) (l : loc) : option OnConflictNode :=
  match object_at h l with
  | Some (NodeObj n) => Some n
  | _ => None
  end.

(** What a builder reference stands for: its class, the location and content
    of the descriptor it holds, and its parse context. *)
Record BuilderView := {
  class : BuilderClass;
  node_loc : loc;
  node : OnConflictNode;
  context : ParseContext;
}.

Definition view (h : heap) (this : loc) : option BuilderView :=
  match object_at h this with
  | Some (BuilderObj c p) =>
      match object_at h p with
      | Some (PropsObj props) =>
          match node_at h (onConflictNode props) with
          | Some n => Some {| class := c; node_loc := onConflictNode props;
                              node := n; context := parseContext props |}
          | None => None
          end
      | _ => None
      end
  | _ => None
  end.

(** The three cells a builder method adds to the store: the cloned node, the
    props literal, the new instance. *)
Definition derived (h : heap) (c : BuilderClass) (n : OnConflictNode)
    (ctx : ParseContext) : heap :=
  h ++ [Cell true (NodeObj n);
        Cell true (PropsObj {| onConflictNode := length h;
                               parseContext := ctx |});
        Cell false (BuilderObj c (S (length h)))].

(** No object of [h] has changed in [h']: same content, and what was frozen
    still is. *)
Definition preserved (h h' : heap) : Prop :=
  ∀ l c, h !! l = Some c →
    ∃ c', h' !! l = Some c' ∧ value c' = value c ∧
          (frozen c = true → frozen c' = true).

(** A computation that only adds to the store. *)
Definition pure_allocating {A} (m : M A) : Prop :=
  ∀ h r h', m h = (r, h') → preserved h h'.

(** The eight methods of the where family. *)
Definition where_family (c : Call) : bool :=
  match c with
  | call_where _ | call_whereRef _ _ _ | call_orWhere _ | call_orWhereRef _ _ _
  | call_whereExists _ | call_whereNotExists _ | call_orWhereExists _
  | call_orWhereNotExists _ => true
  | _ => false
  end.

(** The fragment a where-family call contributes and the connective it is
    joined with ([true] for AND), as the parsers decide. *)
Definition fragment (ctx : ParseContext) (c : Call)
    : option (bool * result (PredicateTree Atom)) :=
  match c with
  | call_where args => Some (true, parseWhereFilter ctx args)
  | call_whereRef lhs op rhs => Some (true, parseReferenceFilter ctx lhs op rhs)
  | call_orWhere args => Some (false, parseWhereFilter ctx args)
  | call_orWhereRef lhs op rhs =>
      Some (false, parseReferenceFilter ctx lhs op rhs)
  | call_whereExists arg => Some (true, parseExistFilter ctx arg)
  | call_whereNotExists arg => Some (true, parseNotExistFilter ctx arg)
  | call_orWhereExists arg => Some (false, parseExistFilter ctx arg)
  | call_orWhereNotExists arg => Some (false, parseNotExistFilter ctx arg)
  | _ => None
  end.

Definition join (and : bool) (tree : option (PredicateTree Atom))
    (new : PredicateTree Atom) : PredicateTree Atom :=
  if and then Predicate_and tree new else Predicate_or tree new.

(** The names a [column] / [columns] call supplies. *)
Definition supplied (c : Call) : option (list string) :=
  match c with
  | call_column column => Some [column]
  | call_columns cs => Some cs
  | _ => None
  end.

Definition is_ok {A} (r : result A) : bool :=
  match r with
  | Ok _ => true
  | Throw _ => false
  end.

(** Whether the collaborators accept the arguments of a call. *)
Definition parses (ctx : ParseContext) (c : Call) : bool :=
  match c with
  | call_doUpdateSet us => is_ok (parseUpdateObject ctx us)
  | _ =>
      match fragment ctx c with
      | Some (_, r) => is_ok r
      | None => true
      end
  end.

Definition is_column_call (c : Call) : bool :=
  match c with
  | call_column _ | call_columns _ => true
  | _ => false
  end.

(** All names a sequence of calls supplies, in call order. *)
Fixpoint supplied_names (cs : list Call) : list string :=
  match cs with
  | [] => []
  | c :: cs' => default [] (supplied c) ++ supplied_names cs'
  end.

(** The protocol state of a Conflict Target Builder: no action chosen. *)
Definition undecided (n : OnConflictNode) : Prop :=
  action n = Undecided ∧ updateWhere n = None.

(** ** The builders as values

    What a caller can tell of the outcome of a call or chain: the exception,
    or the class, descriptor and parse context of the builder returned
    (nothing, for a reference that is not a builder). *)
Definition observe (outcome : result loc * heap)
    : result (option (BuilderClass * OnConflictNode * ParseContext)) :=
  match outcome with
  | (Ok b, h) => Ok ((λ v, (class v, node v, context v)) <$> view h b)
  | (Throw e, _) => Throw e
  end.



(** The key of the descriptor a call of the Conflict Target Builder writes:
    the one key of the object literal it hands to [cloneWith], or the index
    predicate. *)
Inductive Key :=
| key_columns
| key_constraint
| key_indexExpression
| key_indexWhere
| key_doNothing
| key_updates.

#[export] Instance Key_eq_dec : EqDecision Key.
Proof. solve_decision. Defined.

Definition written (c : Call) : option Key :=
  match c with
  | call_column _ | call_columns _ => Some key_columns
  | call_constraint _ => Some key_constraint
  | call_expression _ => Some key_indexExpression
  | call_doNothing => Some key_doNothing
  | call_doUpdateSet _ => Some key_updates
  | call_toOperationNode => None
  | _ => Some key_indexWhere
  end.

(** Two chainable calls that write different keys. *)
Definition independent (c1 c2 : Call) : bool :=
  match written c1, written c2 with
  | Some k1, Some k2 =>
      bool_decide (k1 ≠ k2 ∧ k1 ≠ key_doNothing ∧ k1 ≠ key_updates ∧
                   k2 ≠ key_doNothing ∧ k2 ≠ key_updates)
  | _, _ => false
  end.

(** The fragment of a where-family call whose arguments parse. *)
Definition parsed_fragment (ctx : ParseContext) (c : Call)
    : option (bool * PredicateTree Atom) :=
  match fragment ctx c with
  | Some (cj, Ok f) => Some (cj, f)
  | _ => None
  end.

(** Joining fragments one after the other onto a predicate slot. *)
Definition compose (tree : option (PredicateTree Atom))
    (fragments : list (bool * PredicateTree Atom))
    : option (PredicateTree Atom) :=
  foldl (λ w fr, Some (join fr.1 w fr.2)) tree fragments.

(** What a call makes of a builder of class [cls] over the descriptor [n]:
    the class and descriptor of the builder it returns, or the exception;
    none for a name the class does not define and for the extraction. *)
Definition transition (cls : BuilderClass) (n : OnConflictNode)
    (ctx : ParseContext) (c : Call)
    : option (result (BuilderClass * OnConflictNode)) :=
  match cls with
  | OnConflictBuilderClass =>
      match c with
      | call_column column =>
          Some (Ok (OnConflictBuilderClass,
                    set_columns
                      (Some match columns n with
                            | Some cs => cs ++ [ColumnNode_create column]
                            | None => [ColumnNode_create column]
                            end) n))
      | call_columns cols =>
          Some (Ok (OnConflictBuilderClass,
                    set_columns
                      (Some match columns n with
                            | Some cs => cs ++ map ColumnNode_create cols
                            | None => map ColumnNode_create cols
                            end) n))
      | call_constraint name =>
          Some (Ok (OnConflictBuilderClass,
                    set_constraint (Some (IdentifierNode_create name)) n))
      | call_expression e =>
          Some (Ok (OnConflictBuilderClass,
                    set_indexExpression
                      (Some (RawBuilder_toOperationNode e)) n))
      | call_doNothing =>
          Some (Ok (OnConflictDoNothingBuilderClass,
                    set_doNothing (Some true) n))
      | call_doUpdateSet us =>
          Some match parseUpdateObject ctx us with
               | Ok m => Ok (OnConflictUpdateBuilderClass,
                             set_updates (Some m) n)
               | Throw e => Throw e
               end
      | _ =>
          match fragment ctx c with
          | Some (cj, Ok f) =>
              Some (Ok (OnConflictBuilderClass,
                        set_indexWhere
                          (Some (join cj (indexWhere n) f)) n))
          | Some (_, Throw e) => Some (Throw e)
          | None => None
          end
      end
  | OnConflictDoNothingBuilderClass => None
  | OnConflictUpdateBuilderClass =>
      match fragment ctx c with
      | Some (cj, Ok f) =>
          Some (Ok (OnConflictUpdateBuilderClass,
                    set_updateWhere (Some (join cj (updateWhere n) f)) n))
      | Some (_, Throw e) => Some (Throw e)
      | None => None
      end
  end.

Definition is_extraction (c : Call) : bool :=
  match c with
  | call_toOperationNode => true
  | _ => false
  end.



(** The predicate the where family of a class composes onto: the index
    predicate for [OnConflictBuilder], the update predicate for
    [OnConflictUpdateBuilder]. *)
Definition predicate_slot (cls : BuilderClass) (n : OnConflictNode)
    : option (PredicateTree Atom) :=
  match cls with
  | OnConflictBuilderClass => indexWhere n
  | _ => updateWhere n
  end.

(** ** The await guard

    Modelled from the spec: [preventAwait] (util/prevent-await.js) is not
    part of the sources at hand; it is "a guard preventing accidental
    treatment of a builder as an awaitable".  The three calls
    [preventAwait(Class, message)] that follow the classes give every
    instance a [then] member, which refuses to be called: it throws an
    [Error] with the message the class was registered with. *)
Definition preventAwait_message (cls : BuilderClass) : string :=
  match cls with
  | OnConflictBuilderClass => "don't await OnConflictBuilder instances."
  | OnConflictDoNothingBuilderClass =>
      "don't await OnConflictDoNothingBuilder instances."
  | OnConflictUpdateBuilderClass =>
      "don't await OnConflictUpdateBuilder instances."
  end.

Definition then_guard (message : string) : M loc := throw (Error message).

(** The members of a builder that can be called: the methods of its class
    body, and [then]. *)
Inductive Member :=
| member_method (c : Call)
| member_then.

(** [receiver.member(...)]. *)
Definition send (this : loc) (m : Member) : M loc :=
  match m with
  | member_method c => invoke this c
  | member_then =>
      o ← read this;
      match o with
      | BuilderObj cls _ => then_guard (preventAwait_message cls)
      | _ => not_a_function
      end
  end.

(** Every builder of the store holds a frozen props object. *)
Definition props_frozen (h : heap) : Prop :=
  ∀ l cls p, object_at h l = Some (BuilderObj cls p) →
    frozen <$> h !! p = Some true.

(** The action a builder of a given class stands for. *)
Definition action_of_class (cls : BuilderClass) (n : OnConflictNode) : Prop :=
  match cls with
  | OnConflictBuilderClass => action n = Undecided ∧ updateWhere n = None
  | OnConflictDoNothingBuilderClass =>
      action n = Ignore ∧ updates n = None ∧ updateWhere n = None
  | OnConflictUpdateBuilderClass =>
      ∃ m, action n = Update m (updateWhere n)
  end.
End Builders.

(** ** A stand-in for the collaborators

    Used to run the builders on concrete calls: a filter is kept as the text
    of its arguments, and an empty argument list is a malformed filter. *)
Definition text_parsers : Parsers := {|
  ParseContext := unit;
  any := string;
  Atom := string;
  ColumnUpdateNode := string;
  parseWhereFilter _ args :=
    match args with
    | [] => Throw (Error "invalid filter")
    | _ => Ok (FilterNode (String.concat " " args))
    end;
  parseReferenceFilter _ lhs op rhs :=
    Ok (FilterNode (String.concat " " [lhs; op; rhs]));
  parseExistFilter _ arg := Ok (FilterNode (String.concat " " ["exists"; arg]));
  parseNotExistFilter _ arg :=
    Ok (FilterNode (String.concat " " ["not exists"; arg]));
  parseUpdateObject _ us := Ok [us];
|}.

(** [target()]: the store holds the empty descriptor (0), the props
    literal (1) and the Conflict Target Builder (2). *)
Section Examples.
#[local] Existing Instance text_parsers.

Definition no_context : ParseContext := ().

Definition fresh_store : list cell :=
  snd (target no_context []).

Definition fresh_builder : loc := 2.

Definition fresh_view : BuilderView :=
  {| class := OnConflictBuilderClass; node_loc := 0;
     node := no_props; context := no_context |}.

(** [target().where("q")]: the builder is object 5, its descriptor object 3. *)
Definition filtered_store : list cell :=
  snd (chain fresh_builder [call_where ["q"]]
         fresh_store).

Definition filtered_builder : loc := 5.

Definition filtered_view : BuilderView :=
  {| class := OnConflictBuilderClass; node_loc := 3;
     node := set_indexWhere (Some (FilterNode "q")) no_props;
     context := no_context |}.

(** [target().column("email").constraint("people_pkey")]: builder 8,
    descriptor 6. *)
Definition targeted_store : list cell :=
  snd (chain fresh_builder
         [call_column "email"; call_constraint "people_pkey"] fresh_store).

Definition targeted_builder : loc := 8.

Definition targeted_view : BuilderView :=
  {| class := OnConflictBuilderClass; node_loc := 6;
     node := set_constraint (Some (IdentifierNode_create "people_pkey"))
               (set_columns (Some [ColumnNode_create "email"]) no_props);
     context := no_context |}.

(** [target().constraint("people_pkey").doUpdateSet("name = n")]: the Update
    Action Builder is object 8, its descriptor object 6. *)
Definition update_store : list cell :=
  snd (chain fresh_builder
         [call_constraint "people_pkey"; call_doUpdateSet "name = n"]
         fresh_store).

Definition update_builder : loc := 8.

Definition update_view : BuilderView :=
  {| class := OnConflictUpdateBuilderClass; node_loc := 6;
     node := set_updates (Some ["name = n"])
               (set_constraint (Some (IdentifierNode_create "people_pkey"))
                  no_props);
     context := no_context |}.


(** [target().column("email").doUpdateSet("name = n").where("a")]: the
    Update Action Builder is object 11, its descriptor object 9. *)
Definition mixed_chain : list Call :=
  [call_column "email"; call_doUpdateSet "name = n"; call_where ["a"]].

Definition mixed_store : list cell :=
  snd (chain fresh_builder mixed_chain fresh_store).

Definition mixed_builder : loc := 11.

Definition mixed_view : BuilderView :=
  {| class := OnConflictUpdateBuilderClass; node_loc := 9;
     node := set_updateWhere (Some (FilterNode "a"))
               (set_updates (Some ["name = n"])
                  (set_columns (Some [ColumnNode_create "email"]) no_props));
     context := no_context |}.

(** A second [target()] in the store of the first: the builder is object 5,
    its descriptor object 3. *)
Definition second_store : list cell :=
  snd (target no_context fresh_store).

Definition second_builder : loc := 5.

Definition second_view : BuilderView :=
  {| class := OnConflictBuilderClass; node_loc := 3;
     node := no_props; context := no_context |}.

(** Three where-family calls and the fragments they parse to. *)
Definition three_filters : list Call :=
  [call_where ["a"]; call_orWhereExists "sub"; call_whereRef "x" "=" "y"].

Definition three_fragments : list (bool * PredicateTree Atom) :=
  [(true, FilterNode "a"); (false, FilterNode "exists sub");
   (true, FilterNode "x = y")].
End Examples.

Section Correctness.
Context `{P : Parsers}.
#[local] Abbreviation heap := (list cell) (only parsing).

(** * Running the primitives *)

Implicit Types (h : heap) (l : loc).

Lemma bind_run {A B} (m : M A) (k : A → M B) h a h' :
  m h = (Ok a, h') → (m ≫= k) h = k a h'.
Proof. intros Hm. unfold mbind, M_bind. by rewrite Hm. Qed.

Lemma bind_throw {A B} (m : M A) (k : A → M B) h e h' :
  m h = (Throw e, h') → (m ≫= k) h = (Throw e, h').
Proof. intros Hm. unfold mbind, M_bind. by rewrite Hm. Qed.

Lemma bind_inv {A B} (m : M A) (k : A → M B) h r h' :
  (m ≫= k) h = (r, h') →
  (∃ a h1, m h = (Ok a, h1) ∧ k a h1 = (r, h')) ∨
  (∃ e, m h = (Throw e, h') ∧ r = Throw e).
Proof.
  unfold mbind, M_bind. destruct (m h) as [[a|e] h1]; intros Hk.
  - left. eauto.
  - right. exists e. by inversion Hk.
Qed.

Lemma read_run h l c : h !! l = Some c → read l h = (Ok (value c), h).
Proof. intros Hl. unfold read. by rewrite Hl. Qed.

Lemma read_object h l o : object_at h l = Some o → read l h = (Ok o, h).
Proof.
  unfold object_at. destruct (h !! l) as [c|] eqn:Hl; [|done].
  intros [= <-]. by apply read_run.
Qed.

Lemma read_node_run h l n : node_at h l = Some n → read_node l h = (Ok n, h).
Proof.
  unfold node_at. destruct (object_at h l) as [[]|] eqn:Ho; try done.
  intros [= <-]. unfold read_node. by rewrite (bind_run _ _ _ _ _ (read_object _ _ _ Ho)).
Qed.

Lemma freeze_last h f o :
  freeze (length h) (h ++ [Cell f o]) = (Ok (length h), h ++ [Cell true o]).
Proof.
  unfold freeze. rewrite list_lookup_middle by done. cbn.
  by rewrite (insert_app_r_alt h) by lia; rewrite Nat.sub_diag.
Qed.

(** A literal that is frozen as soon as it is built. *)
Lemma alloc_freeze_run h o :
  (l ← alloc o; freeze l) h = (Ok (length h), h ++ [Cell true o]).
Proof. unfold mbind, M_bind, alloc. by rewrite freeze_last. Qed.

Lemma object_at_app h k l o :
  object_at h l = Some o → object_at (h ++ k) l = Some o.
Proof.
  unfold object_at. destruct (h !! l) as [c|] eqn:Hl; [|done].
  by rewrite (lookup_app_l_Some _ _ _ _ Hl).
Qed.

Lemma node_at_app h k l n : node_at h l = Some n → node_at (h ++ k) l = Some n.
Proof.
  unfold node_at. destruct (object_at h l) as [o|] eqn:Ho; [|done].
  by rewrite (object_at_app _ k _ _ Ho).
Qed.

Lemma view_inv h this v :
  view h this = Some v →
  ∃ p, object_at h this = Some (BuilderObj (class v) p) ∧
       object_at h p = Some (PropsObj {| onConflictNode := node_loc v;
                                         parseContext := context v |}) ∧
       node_at h (node_loc v) = Some (node v).
Proof.
  unfold view.
  destruct (object_at h this) as [[| |c p]|] eqn:Hb; try done.
  destruct (object_at h p) as [[|[nl ctx]|]|] eqn:Hp; try done. cbn.
  destruct (node_at h nl) as [n|] eqn:Hn; [|done].
  intros [= <-]. cbn. eauto.
Qed.

Lemma view_app h k this v : view h this = Some v → view (h ++ k) this = Some v.
Proof.
  intros (p & Hb & Hp & Hn)%view_inv. unfold view.
  rewrite (object_at_app _ k _ _ Hb), (object_at_app _ k _ _ Hp). cbn.
  rewrite (node_at_app _ k _ _ Hn). by destruct v.
Qed.

Lemma this_props_run h this v :
  view h this = Some v →
  this_props (class v) this h =
    (Ok {| onConflictNode := node_loc v; parseContext := context v |}, h).
Proof.
  intros (p & Hb & Hp & _)%view_inv. unfold this_props.
  rewrite (bind_run _ _ _ _ _ (read_object _ _ _ Hb)).
  rewrite decide_True by done.
  by rewrite (bind_run _ _ _ _ _ (read_object _ _ _ Hp)).
Qed.

(** A method of class [c] called on an instance of another class fails on
    its first access to [#props]. *)
Lemma this_props_other h this v c :
  view h this = Some v → class v ≠ c →
  ∃ e, this_props c this h = (Throw (TypeError e), h).
Proof.
  intros (p & Hb & _)%view_inv Hc. unfold this_props.
  rewrite (bind_run _ _ _ _ _ (read_object _ _ _ Hb)).
  rewrite decide_False by done. by eexists.
Qed.

Lemma view_derived h c n ctx :
  view (derived h c n ctx) (S (S (length h))) =
    Some {| class := c; node_loc := length h; node := n; context := ctx |}.
Proof.
  unfold view, node_at, object_at, derived.
  rewrite (lookup_app_r h) by lia.
  replace (S (S (length h)) - length h) with 2 by lia. cbn.
  rewrite (lookup_app_r h) by lia.
  replace (S (length h) - length h) with 1 by lia. cbn.
  rewrite (lookup_app_r h) by lia.
  by rewrite Nat.sub_diag.
Qed.
Lemma lift_run {A} (r : result A) h : lift r h = (r, h).
Proof. done. Qed.

Lemma cloneWith_run h l n d :
  node_at h l = Some n →
  OnConflictNode_cloneWith l d h =
    (Ok (length h), h ++ [Cell true (NodeObj (spread n d))]).
Proof.
  intros Hn. unfold OnConflictNode_cloneWith.
  rewrite (bind_run _ _ _ _ _ (read_node_run _ _ _ Hn)).
  apply alloc_freeze_run.
Qed.

Lemma cloneWithIndexWhere_run h l n f :
  node_at h l = Some n →
  OnConflictNode_cloneWithIndexWhere l f h =
    (Ok (length h),
     h ++ [Cell true (NodeObj
             (set_indexWhere (Some (Predicate_and (indexWhere n) f)) n))]).
Proof.
  intros Hn. unfold OnConflictNode_cloneWithIndexWhere.
  rewrite (bind_run _ _ _ _ _ (read_node_run _ _ _ Hn)).
  apply alloc_freeze_run.
Qed.

Lemma cloneWithIndexOrWhere_run h l n f :
  node_at h l = Some n →
  OnConflictNode_cloneWithIndexOrWhere l f h =
    (Ok (length h),
     h ++ [Cell true (NodeObj
             (set_indexWhere (Some (Predicate_or (indexWhere n) f)) n))]).
Proof.
  intros Hn. unfold OnConflictNode_cloneWithIndexOrWhere.
  rewrite (bind_run _ _ _ _ _ (read_node_run _ _ _ Hn)).
  apply alloc_freeze_run.
Qed.

Lemma cloneWithUpdateWhere_run h l n f :
  node_at h l = Some n →
  OnConflictNode_cloneWithUpdateWhere l f h =
    (Ok (length h),
     h ++ [Cell true (NodeObj
             (set_updateWhere (Some (Predicate_and (updateWhere n) f)) n))]).
Proof.
  intros Hn. unfold OnConflictNode_cloneWithUpdateWhere.
  rewrite (bind_run _ _ _ _ _ (read_node_run _ _ _ Hn)).
  apply alloc_freeze_run.
Qed.

Lemma cloneWithUpdateOrWhere_run h l n f :
  node_at h l = Some n →
  OnConflictNode_cloneWithUpdateOrWhere l f h =
    (Ok (length h),
     h ++ [Cell true (NodeObj
             (set_updateWhere (Some (Predicate_or (updateWhere n) f)) n))]).
Proof.
  intros Hn. unfold OnConflictNode_cloneWithUpdateOrWhere.
  rewrite (bind_run _ _ _ _ _ (read_node_run _ _ _ Hn)).
  apply alloc_freeze_run.
Qed.

(** The tail every method shares: clone the node, build the props literal,
    construct the successor. *)
Lemma props_new_run (c : BuilderClass) h c0 props :
  (p ← props_with props (length h);
   p' ← freeze p; alloc (BuilderObj c p')) (h ++ [c0]) =
  (Ok (S (S (length h))),
   h ++ [c0;
         Cell true (PropsObj {| onConflictNode := length h;
                                parseContext := parseContext props |});
         Cell false (BuilderObj c (S (length h)))]).
Proof.
  unfold props_with, mbind, M_bind, alloc.
  replace (length (h ++ [c0])) with (S (length h))
    by (rewrite length_app; cbn; lia).
  pose proof (freeze_last (h ++ [c0]) false
    (PropsObj {| onConflictNode := length h;
                 parseContext := parseContext props |})) as Hf.
  replace (length (h ++ [c0])) with (S (length h)) in Hf
    by (rewrite length_app; cbn; lia).
  rewrite Hf.
  replace (length ((h ++ [c0]) ++ [Cell true (PropsObj
     {| onConflictNode := length h; parseContext := parseContext props |})]))
    with (S (S (length h))) by (rewrite !length_app; cbn; lia).
  by rewrite <- !app_assoc.
Qed.

Lemma finish_OnConflictBuilder h (clone : M loc) props n :
  clone h = (Ok (length h), h ++ [Cell true (NodeObj n)]) →
  (l ← clone; p ← props_with props l; new_OnConflictBuilder p) h =
    (Ok (S (S (length h))),
     derived h OnConflictBuilderClass n (parseContext props)).
Proof.
  intros Hc. rewrite (bind_run _ _ _ _ _ Hc). apply props_new_run.
Qed.

Lemma finish_OnConflictDoNothingBuilder h (clone : M loc) props n :
  clone h = (Ok (length h), h ++ [Cell true (NodeObj n)]) →
  (l ← clone; p ← props_with props l; new_OnConflictDoNothingBuilder p) h =
    (Ok (S (S (length h))),
     derived h OnConflictDoNothingBuilderClass n (parseContext props)).
Proof.
  intros Hc. rewrite (bind_run _ _ _ _ _ Hc). apply props_new_run.
Qed.

Lemma finish_OnConflictUpdateBuilder h (clone : M loc) props n :
  clone h = (Ok (length h), h ++ [Cell true (NodeObj n)]) →
  (l ← clone; p ← props_with props l; new_OnConflictUpdateBuilder p) h =
    (Ok (S (S (length h))),
     derived h OnConflictUpdateBuilderClass n (parseContext props)).
Proof.
  intros Hc. rewrite (bind_run _ _ _ _ _ Hc). apply props_new_run.
Qed.
(** * What each method returns

    On a receiver of the right class every method adds exactly the three
    cells of [derived] and returns the new instance; a parser that throws
    ends the call before anything is allocated. *)

Ltac enter Hv Hc :=
  let Hp := fresh "Hp" in
  pose proof (this_props_run _ _ _ Hv) as Hp; rewrite Hc in Hp;
  cbn zeta; rewrite (bind_run _ _ _ _ _ Hp);
  cbn [onConflictNode parseContext]; clear Hp.

Ltac parsed :=
  match goal with
  | |- context [lift ?r] =>
      destruct r as [?f|?e] eqn:?;
      [ rewrite (bind_run _ _ _ _ _ (lift_run _ _))
      | by rewrite (bind_throw _ _ _ _ _ (lift_run _ _)) ]
  end.

Lemma column_run h this v column :
  view h this = Some v → class v = OnConflictBuilderClass →
  OnConflictBuilder_column this column h =
    (Ok (S (S (length h))),
     derived h OnConflictBuilderClass
       (set_columns
          (Some match columns (node v) with
                | Some cs => cs ++ [ColumnNode_create column]
                | None => [ColumnNode_create column]
                end) (node v)) (context v)).
Proof.
  intros Hv Hc. destruct (view_inv _ _ _ Hv) as (? & _ & _ & Hn).
  unfold OnConflictBuilder_column. enter Hv Hc.
  rewrite (bind_run _ _ _ _ _ (read_node_run _ _ _ Hn)).
  by rewrite (finish_OnConflictBuilder _ _ _ _ (cloneWith_run _ _ _ _ Hn)).
Qed.

Lemma columns_run h this v cols :
  view h this = Some v → class v = OnConflictBuilderClass →
  OnConflictBuilder_columns this cols h =
    (Ok (S (S (length h))),
     derived h OnConflictBuilderClass
       (set_columns
          (Some match columns (node v) with
                | Some cs => cs ++ map ColumnNode_create cols
                | None => map ColumnNode_create cols
                end) (node v)) (context v)).
Proof.
  intros Hv Hc. destruct (view_inv _ _ _ Hv) as (? & _ & _ & Hn).
  unfold OnConflictBuilder_columns. enter Hv Hc.
  rewrite (bind_run _ _ _ _ _ (read_node_run _ _ _ Hn)).
  by rewrite (finish_OnConflictBuilder _ _ _ _ (cloneWith_run _ _ _ _ Hn)).
Qed.

Lemma constraint_run h this v name :
  view h this = Some v → class v = OnConflictBuilderClass →
  OnConflictBuilder_constraint this name h =
    (Ok (S (S (length h))),
     derived h OnConflictBuilderClass
       (set_constraint (Some (IdentifierNode_create name)) (node v))
       (context v)).
Proof.
  intros Hv Hc. destruct (view_inv _ _ _ Hv) as (? & _ & _ & Hn).
  unfold OnConflictBuilder_constraint. enter Hv Hc.
  by rewrite (finish_OnConflictBuilder _ _ _ _ (cloneWith_run _ _ _ _ Hn)).
Qed.

Lemma expression_run h this v e :
  view h this = Some v → class v = OnConflictBuilderClass →
  OnConflictBuilder_expression this e h =
    (Ok (S (S (length h))),
     derived h OnConflictBuilderClass
       (set_indexExpression (Some (RawBuilder_toOperationNode e)) (node v))
       (context v)).
Proof.
  intros Hv Hc. destruct (view_inv _ _ _ Hv) as (? & _ & _ & Hn).
  unfold OnConflictBuilder_expression. enter Hv Hc.
  by rewrite (finish_OnConflictBuilder _ _ _ _ (cloneWith_run _ _ _ _ Hn)).
Qed.

Lemma doNothing_run h this v :
  view h this = Some v → class v = OnConflictBuilderClass →
  OnConflictBuilder_doNothing this h =
    (Ok (S (S (length h))),
     derived h OnConflictDoNothingBuilderClass
       (set_doNothing (Some true) (node v)) (context v)).
Proof.
  intros Hv Hc. destruct (view_inv _ _ _ Hv) as (? & _ & _ & Hn).
  unfold OnConflictBuilder_doNothing. enter Hv Hc.
  by rewrite (finish_OnConflictDoNothingBuilder _ _ _ _
                (cloneWith_run _ _ _ _ Hn)).
Qed.

Lemma doUpdateSet_run h this v us :
  view h this = Some v → class v = OnConflictBuilderClass →
  OnConflictBuilder_doUpdateSet this us h =
    match parseUpdateObject (context v) us with
    | Ok m =>
        (Ok (S (S (length h))),
         derived h OnConflictUpdateBuilderClass
           (set_updates (Some m) (node v)) (context v))
    | Throw e => (Throw e, h)
    end.
Proof.
  intros Hv Hc. destruct (view_inv _ _ _ Hv) as (? & _ & _ & Hn).
  unfold OnConflictBuilder_doUpdateSet. enter Hv Hc. parsed.
  by rewrite (finish_OnConflictUpdateBuilder _ _ _ _
                (cloneWith_run _ _ _ _ Hn)).
Qed.

Lemma where_run h this v args :
  view h this = Some v → class v = OnConflictBuilderClass →
  OnConflictBuilder_where this args h =
    match parseWhereFilter (context v) args with
    | Ok f =>
        (Ok (S (S (length h))),
         derived h OnConflictBuilderClass
           (set_indexWhere (Some (Predicate_and (indexWhere (node v)) f)) (node v))
           (context v))
    | Throw e => (Throw e, h)
    end.
Proof.
  intros Hv Hc. destruct (view_inv _ _ _ Hv) as (? & _ & _ & Hn).
  unfold OnConflictBuilder_where. enter Hv Hc. parsed.
  by rewrite (finish_OnConflictBuilder _ _ _ _ (cloneWithIndexWhere_run _ _ _ _ Hn)).
Qed.

Lemma whereRef_run h this v lhs op rhs :
  view h this = Some v → class v = OnConflictBuilderClass →
  OnConflictBuilder_whereRef this lhs op rhs h =
    match parseReferenceFilter (context v) lhs op rhs with
    | Ok f =>
        (Ok (S (S (length h))),
         derived h OnConflictBuilderClass
           (set_indexWhere (Some (Predicate_and (indexWhere (node v)) f)) (node v))
           (context v))
    | Throw e => (Throw e, h)
    end.
Proof.
  intros Hv Hc. destruct (view_inv _ _ _ Hv) as (? & _ & _ & Hn).
  unfold OnConflictBuilder_whereRef. enter Hv Hc. parsed.
  by rewrite (finish_OnConflictBuilder _ _ _ _ (cloneWithIndexWhere_run _ _ _ _ Hn)).
Qed.

Lemma orWhere_run h this v args :
  view h this = Some v → class v = OnConflictBuilderClass →
  OnConflictBuilder_orWhere this args h =
    match parseWhereFilter (context v) args with
    | Ok f =>
        (Ok (S (S (length h))),
         derived h OnConflictBuilderClass
           (set_indexWhere (Some (Predicate_or (indexWhere (node v)) f)) (node v))
           (context v))
    | Throw e => (Throw e, h)
    end.
Proof.
  intros Hv Hc. destruct (view_inv _ _ _ Hv) as (? & _ & _ & Hn).
  unfold OnConflictBuilder_orWhere. enter Hv Hc. parsed.
  by rewrite (finish_OnConflictBuilder _ _ _ _ (cloneWithIndexOrWhere_run _ _ _ _ Hn)).
Qed.

Lemma orWhereRef_run h this v lhs op rhs :
  view h this = Some v → class v = OnConflictBuilderClass →
  OnConflictBuilder_orWhereRef this lhs op rhs h =
    match parseReferenceFilter (context v) lhs op rhs with
    | Ok f =>
        (Ok (S (S (length h))),
         derived h OnConflictBuilderClass
           (set_indexWhere (Some (Predicate_or (indexWhere (node v)) f)) (node v))
           (context v))
    | Throw e => (Throw e, h)
    end.
Proof.
  intros Hv Hc. destruct (view_inv _ _ _ Hv) as (? & _ & _ & Hn).
  unfold OnConflictBuilder_orWhereRef. enter Hv Hc. parsed.
  by rewrite (finish_OnConflictBuilder _ _ _ _ (cloneWithIndexOrWhere_run _ _ _ _ Hn)).
Qed.

Lemma whereExists_run h this v arg :
  view h this = Some v → class v = OnConflictBuilderClass →
  OnConflictBuilder_whereExists this arg h =
    match parseExistFilter (context v) arg with
    | Ok f =>
        (Ok (S (S (length h))),
         derived h OnConflictBuilderClass
           (set_indexWhere (Some (Predicate_and (indexWhere (node v)) f)) (node v))
           (context v))
    | Throw e => (Throw e, h)
    end.
Proof.
  intros Hv Hc. destruct (view_inv _ _ _ Hv) as (? & _ & _ & Hn).
  unfold OnConflictBuilder_whereExists. enter Hv Hc. parsed.
  by rewrite (finish_OnConflictBuilder _ _ _ _ (cloneWithIndexWhere_run _ _ _ _ Hn)).
Qed.

Lemma whereNotExists_run h this v arg :
  view h this = Some v → class v = OnConflictBuilderClass →
  OnConflictBuilder_whereNotExists this arg h =
    match parseNotExistFilter (context v) arg with
    | Ok f =>
        (Ok (S (S (length h))),
         derived h OnConflictBuilderClass
           (set_indexWhere (Some (Predicate_and (indexWhere (node v)) f)) (node v))
           (context v))
    | Throw e => (Throw e, h)
    end.
Proof.
  intros Hv Hc. destruct (view_inv _ _ _ Hv) as (? & _ & _ & Hn).
  unfold OnConflictBuilder_whereNotExists. enter Hv Hc. parsed.
  by rewrite (finish_OnConflictBuilder _ _ _ _ (cloneWithIndexWhere_run _ _ _ _ Hn)).
Qed.

Lemma orWhereExists_run h this v arg :
  view h this = Some v → class v = OnConflictBuilderClass →
  OnConflictBuilder_orWhereExists this arg h =
    match parseExistFilter (context v) arg with
    | Ok f =>
        (Ok (S (S (length h))),
         derived h OnConflictBuilderClass
           (set_indexWhere (Some (Predicate_or (indexWhere (node v)) f)) (node v))
           (context v))
    | Throw e => (Throw e, h)
    end.
Proof.
  intros Hv Hc. destruct (view_inv _ _ _ Hv) as (? & _ & _ & Hn).
  unfold OnConflictBuilder_orWhereExists. enter Hv Hc. parsed.
  by rewrite (finish_OnConflictBuilder _ _ _ _ (cloneWithIndexOrWhere_run _ _ _ _ Hn)).
Qed.

Lemma orWhereNotExists_run h this v arg :
  view h this = Some v → class v = OnConflictBuilderClass →
  OnConflictBuilder_orWhereNotExists this arg h =
    match parseNotExistFilter (context v) arg with
    | Ok f =>
        (Ok (S (S (length h))),
         derived h OnConflictBuilderClass
           (set_indexWhere (Some (Predicate_or (indexWhere (node v)) f)) (node v))
           (context v))
    | Throw e => (Throw e, h)
    end.
Proof.
  intros Hv Hc. destruct (view_inv _ _ _ Hv) as (? & _ & _ & Hn).
  unfold OnConflictBuilder_orWhereNotExists. enter Hv Hc. parsed.
  by rewrite (finish_OnConflictBuilder _ _ _ _ (cloneWithIndexOrWhere_run _ _ _ _ Hn)).
Qed.

Lemma update_where_run h this v args :
  view h this = Some v → class v = OnConflictUpdateBuilderClass →
  OnConflictUpdateBuilder_where this args h =
    match parseWhereFilter (context v) args with
    | Ok f =>
        (Ok (S (S (length h))),
         derived h OnConflictUpdateBuilderClass
           (set_updateWhere (Some (Predicate_and (updateWhere (node v)) f)) (node v))
           (context v))
    | Throw e => (Throw e, h)
    end.
Proof.
  intros Hv Hc. destruct (view_inv _ _ _ Hv) as (? & _ & _ & Hn).
  unfold OnConflictUpdateBuilder_where. enter Hv Hc. parsed.
  by rewrite (finish_OnConflictUpdateBuilder _ _ _ _ (cloneWithUpdateWhere_run _ _ _ _ Hn)).
Qed.

Lemma update_whereRef_run h this v lhs op rhs :
  view h this = Some v → class v = OnConflictUpdateBuilderClass →
  OnConflictUpdateBuilder_whereRef this lhs op rhs h =
    match parseReferenceFilter (context v) lhs op rhs with
    | Ok f =>
        (Ok (S (S (length h))),
         derived h OnConflictUpdateBuilderClass
           (set_updateWhere (Some (Predicate_and (updateWhere (node v)) f)) (node v))
           (context v))
    | Throw e => (Throw e, h)
    end.
Proof.
  intros Hv Hc. destruct (view_inv _ _ _ Hv) as (? & _ & _ & Hn).
  unfold OnConflictUpdateBuilder_whereRef. enter Hv Hc. parsed.
  by rewrite (finish_OnConflictUpdateBuilder _ _ _ _ (cloneWithUpdateWhere_run _ _ _ _ Hn)).
Qed.

Lemma update_orWhere_run h this v args :
  view h this = Some v → class v = OnConflictUpdateBuilderClass →
  OnConflictUpdateBuilder_orWhere this args h =
    match parseWhereFilter (context v) args with
    | Ok f =>
        (Ok (S (S (length h))),
         derived h OnConflictUpdateBuilderClass
           (set_updateWhere (Some (Predicate_or (updateWhere (node v)) f)) (node v))
           (context v))
    | Throw e => (Throw e, h)
    end.
Proof.
  intros Hv Hc. destruct (view_inv _ _ _ Hv) as (? & _ & _ & Hn).
  unfold OnConflictUpdateBuilder_orWhere. enter Hv Hc. parsed.
  by rewrite (finish_OnConflictUpdateBuilder _ _ _ _ (cloneWithUpdateOrWhere_run _ _ _ _ Hn)).
Qed.

Lemma update_orWhereRef_run h this v lhs op rhs :
  view h this = Some v → class v = OnConflictUpdateBuilderClass →
  OnConflictUpdateBuilder_orWhereRef this lhs op rhs h =
    match parseReferenceFilter (context v) lhs op rhs with
    | Ok f =>
        (Ok (S (S (length h))),
         derived h OnConflictUpdateBuilderClass
           (set_updateWhere (Some (Predicate_or (updateWhere (node v)) f)) (node v))
           (context v))
    | Throw e => (Throw e, h)
    end.
Proof.
  intros Hv Hc. destruct (view_inv _ _ _ Hv) as (? & _ & _ & Hn).
  unfold OnConflictUpdateBuilder_orWhereRef. enter Hv Hc. parsed.
  by rewrite (finish_OnConflictUpdateBuilder _ _ _ _ (cloneWithUpdateOrWhere_run _ _ _ _ Hn)).
Qed.

Lemma update_whereExists_run h this v arg :
  view h this = Some v → class v = OnConflictUpdateBuilderClass →
  OnConflictUpdateBuilder_whereExists this arg h =
    match parseExistFilter (context v) arg with
    | Ok f =>
        (Ok (S (S (length h))),
         derived h OnConflictUpdateBuilderClass
           (set_updateWhere (Some (Predicate_and (updateWhere (node v)) f)) (node v))
           (context v))
    | Throw e => (Throw e, h)
    end.
Proof.
  intros Hv Hc. destruct (view_inv _ _ _ Hv) as (? & _ & _ & Hn).
  unfold OnConflictUpdateBuilder_whereExists. enter Hv Hc. parsed.
  by rewrite (finish_OnConflictUpdateBuilder _ _ _ _ (cloneWithUpdateWhere_run _ _ _ _ Hn)).
Qed.

Lemma update_whereNotExists_run h this v arg :
  view h this = Some v → class v = OnConflictUpdateBuilderClass →
  OnConflictUpdateBuilder_whereNotExists this arg h =
    match parseNotExistFilter (context v) arg with
    | Ok f =>
        (Ok (S (S (length h))),
         derived h OnConflictUpdateBuilderClass
           (set_updateWhere (Some (Predicate_and (updateWhere (node v)) f)) (node v))
           (context v))
    | Throw e => (Throw e, h)
    end.
Proof.
  intros Hv Hc. destruct (view_inv _ _ _ Hv) as (? & _ & _ & Hn).
  unfold OnConflictUpdateBuilder_whereNotExists. enter Hv Hc. parsed.
  by rewrite (finish_OnConflictUpdateBuilder _ _ _ _ (cloneWithUpdateWhere_run _ _ _ _ Hn)).
Qed.

Lemma update_orWhereExists_run h this v arg :
  view h this = Some v → class v = OnConflictUpdateBuilderClass →
  OnConflictUpdateBuilder_orWhereExists this arg h =
    match parseExistFilter (context v) arg with
    | Ok f =>
        (Ok (S (S (length h))),
         derived h OnConflictUpdateBuilderClass
           (set_updateWhere (Some (Predicate_or (updateWhere (node v)) f)) (node v))
           (context v))
    | Throw e => (Throw e, h)
    end.
Proof.
  intros Hv Hc. destruct (view_inv _ _ _ Hv) as (? & _ & _ & Hn).
  unfold OnConflictUpdateBuilder_orWhereExists. enter Hv Hc. parsed.
  by rewrite (finish_OnConflictUpdateBuilder _ _ _ _ (cloneWithUpdateOrWhere_run _ _ _ _ Hn)).
Qed.

Lemma update_orWhereNotExists_run h this v arg :
  view h this = Some v → class v = OnConflictUpdateBuilderClass →
  OnConflictUpdateBuilder_orWhereNotExists this arg h =
    match parseNotExistFilter (context v) arg with
    | Ok f =>
        (Ok (S (S (length h))),
         derived h OnConflictUpdateBuilderClass
           (set_updateWhere (Some (Predicate_or (updateWhere (node v)) f)) (node v))
           (context v))
    | Throw e => (Throw e, h)
    end.
Proof.
  intros Hv Hc. destruct (view_inv _ _ _ Hv) as (? & _ & _ & Hn).
  unfold OnConflictUpdateBuilder_orWhereNotExists. enter Hv Hc. parsed.
  by rewrite (finish_OnConflictUpdateBuilder _ _ _ _ (cloneWithUpdateOrWhere_run _ _ _ _ Hn)).
Qed.

Lemma doNothing_toOperationNode_run h this v :
  view h this = Some v → class v = OnConflictDoNothingBuilderClass →
  OnConflictDoNothingBuilder_toOperationNode this h = (Ok (node_loc v), h).
Proof.
  intros Hv Hc. unfold OnConflictDoNothingBuilder_toOperationNode.
  by enter Hv Hc.
Qed.

Lemma update_toOperationNode_run h this v :
  view h this = Some v → class v = OnConflictUpdateBuilderClass →
  OnConflictUpdateBuilder_toOperationNode this h = (Ok (node_loc v), h).
Proof.
  intros Hv Hc. unfold OnConflictUpdateBuilder_toOperationNode.
  by enter Hv Hc.
Qed.
(** * Dispatch *)

Lemma invoke_run h this v c :
  view h this = Some v →
  invoke this c h =
    match method (class v) c with
    | Some m => m this h
    | None => (Throw (TypeError "is not a function"), h)
    end.
Proof.
  intros (p & Hb & _)%view_inv. unfold invoke.
  rewrite (bind_run _ _ _ _ _ (read_object _ _ _ Hb)).
  by destruct (method (class v) c).
Qed.

Ltac run_method Hv Hc :=
  first
    [ rewrite (column_run _ _ _ _ Hv Hc)
    | rewrite (columns_run _ _ _ _ Hv Hc)
    | rewrite (constraint_run _ _ _ _ Hv Hc)
    | rewrite (expression_run _ _ _ _ Hv Hc)
    | rewrite (where_run _ _ _ _ Hv Hc)
    | rewrite (whereRef_run _ _ _ _ _ _ Hv Hc)
    | rewrite (orWhere_run _ _ _ _ Hv Hc)
    | rewrite (orWhereRef_run _ _ _ _ _ _ Hv Hc)
    | rewrite (whereExists_run _ _ _ _ Hv Hc)
    | rewrite (whereNotExists_run _ _ _ _ Hv Hc)
    | rewrite (orWhereExists_run _ _ _ _ Hv Hc)
    | rewrite (orWhereNotExists_run _ _ _ _ Hv Hc)
    | rewrite (doNothing_run _ _ _ Hv Hc)
    | rewrite (doUpdateSet_run _ _ _ _ Hv Hc)
    | rewrite (update_where_run _ _ _ _ Hv Hc)
    | rewrite (update_whereRef_run _ _ _ _ _ _ Hv Hc)
    | rewrite (update_orWhere_run _ _ _ _ Hv Hc)
    | rewrite (update_orWhereRef_run _ _ _ _ _ _ Hv Hc)
    | rewrite (update_whereExists_run _ _ _ _ Hv Hc)
    | rewrite (update_whereNotExists_run _ _ _ _ Hv Hc)
    | rewrite (update_orWhereExists_run _ _ _ _ Hv Hc)
    | rewrite (update_orWhereNotExists_run _ _ _ _ Hv Hc)
    | rewrite (doNothing_toOperationNode_run _ _ _ Hv Hc)
    | rewrite (update_toOperationNode_run _ _ _ Hv Hc) ].

(** A where-family call on a Conflict Target Builder, whatever the method:
    the parsed fragment is joined onto [indexWhere]. *)
Lemma target_where_family_run h this v c conj r :
  view h this = Some v → class v = OnConflictBuilderClass →
  fragment (context v) c = Some (conj, r) →
  invoke this c h =
    match r with
    | Ok f =>
        (Ok (S (S (length h))),
         derived h OnConflictBuilderClass
           (set_indexWhere (Some (join conj (indexWhere (node v)) f)) (node v))
           (context v))
    | Throw e => (Throw e, h)
    end.
Proof.
  intros Hv Hc Hf. rewrite (invoke_run _ _ _ _ Hv), Hc.
  destruct c; try discriminate Hf; cbn in Hf |- *;
    injection Hf as <- <-; by run_method Hv Hc.
Qed.

(** The same on an Update Action Builder: the fragment is joined onto
    [updateWhere]. *)
Lemma update_where_family_run h this v c conj r :
  view h this = Some v → class v = OnConflictUpdateBuilderClass →
  fragment (context v) c = Some (conj, r) →
  invoke this c h =
    match r with
    | Ok f =>
        (Ok (S (S (length h))),
         derived h OnConflictUpdateBuilderClass
           (set_updateWhere (Some (join conj (updateWhere (node v)) f))
              (node v))
           (context v))
    | Throw e => (Throw e, h)
    end.
Proof.
  intros Hv Hc Hf. rewrite (invoke_run _ _ _ _ Hv), Hc.
  destruct c; try discriminate Hf; cbn in Hf |- *;
    injection Hf as <- <-; by run_method Hv Hc.
Qed.

Lemma fragment_where_family ctx c :
  where_family c = true ↔ is_Some (fragment ctx c).
Proof. destruct c; cbn; split; (done || by intros [? [=]] || eauto). Qed.

(** Every successful call other than an extraction returns a new instance
    over a new node, in a store that is the old one plus three cells; and a
    Conflict Target Builder only comes from a Conflict Target Builder, with
    the action keys as they were. *)
Lemma invoke_derived h this v c b h' :
  view h this = Some v → c ≠ call_toOperationNode →
  invoke this c h = (Ok b, h') →
  ∃ cls n,
    b = S (S (length h)) ∧ h' = derived h cls n (context v) ∧
    (cls = OnConflictBuilderClass →
     class v = OnConflictBuilderClass ∧
     doNothing n = doNothing (node v) ∧
     updates n = updates (node v) ∧
     updateWhere n = updateWhere (node v)).
Proof.
  intros Hv Hc. rewrite (invoke_run _ _ _ _ Hv).
  destruct (class v) eqn:Hcls, c; try done; cbn;
    run_method Hv Hcls;
    repeat match goal with
           | |- context [match ?r with Ok _ => _ | Throw _ => _ end] =>
               destruct r
           end;
    intros [= <- <-]; eexists _, _; by split_and!.
Qed.

(** A call of a method the receiver's class defines returns, unless a parser
    throws. *)
Lemma invoke_returns h this v c :
  view h this = Some v → is_Some (method (class v) c) →
  parses (context v) c = true →
  ∃ b h', invoke this c h = (Ok b, h').
Proof.
  intros Hv Hm Hp. rewrite (invoke_run _ _ _ _ Hv).
  destruct (class v) eqn:Hcls, c; cbn in Hm |- *;
    try (by destruct Hm as [? [=]]);
    run_method Hv Hcls; cbn in Hp;
    repeat match goal with
           | |- context [match ?r with Ok _ => _ | Throw _ => _ end] =>
               destruct r; [|discriminate Hp]
           end;
    eauto.
Qed.

(** Extraction, on either terminal builder, hands out the node the builder
    holds and leaves the store alone. *)
Lemma toOperationNode_run h u v :
  view h u = Some v → class v ≠ OnConflictBuilderClass →
  invoke u call_toOperationNode h = (Ok (node_loc v), h).
Proof.
  intros Hv Hc. rewrite (invoke_run _ _ _ _ Hv).
  destruct (class v) eqn:Hcls; [done| |]; cbn; by run_method Hv Hcls.
Qed.

(** A reference to a node is not a builder: any call on it fails. *)
Lemma invoke_node h l n c :
  node_at h l = Some n →
  invoke l c h = (Throw (TypeError "is not a function"), h).
Proof.
  unfold node_at. destruct (object_at h l) as [[]|] eqn:Ho; try done.
  intros _. unfold invoke.
  by rewrite (bind_run _ _ _ _ _ (read_object _ _ _ Ho)).
Qed.

Lemma view_node h l n : node_at h l = Some n → view h l = None.
Proof.
  unfold node_at, view. by destruct (object_at h l) as [[]|].
Qed.

(** * Nothing is written to an object that exists *)

Lemma preserved_refl h : preserved h h.
Proof. intros l c Hl. eauto. Qed.

Lemma preserved_trans h1 h2 h3 :
  preserved h1 h2 → preserved h2 h3 → preserved h1 h3.
Proof.
  intros H12 H23 l c Hl.
  destruct (H12 _ _ Hl) as (c2 & Hl2 & Hv2 & Hf2).
  destruct (H23 _ _ Hl2) as (c3 & Hl3 & Hv3 & Hf3).
  exists c3. split_and!; [done | congruence | auto].
Qed.

Lemma preserved_object_at h h' l o :
  preserved h h' → object_at h l = Some o → object_at h' l = Some o.
Proof.
  unfold object_at. intros Hp. destruct (h !! l) as [c|] eqn:Hl; [|done].
  destruct (Hp _ _ Hl) as (c' & -> & Hv & _). cbn. congruence.
Qed.

Lemma preserved_node_at h h' l n :
  preserved h h' → node_at h l = Some n → node_at h' l = Some n.
Proof.
  unfold node_at. intros Hp. destruct (object_at h l) as [o|] eqn:Ho; [|done].
  by rewrite (preserved_object_at _ _ _ _ Hp Ho).
Qed.

Lemma preserved_view h h' this v :
  preserved h h' → view h this = Some v → view h' this = Some v.
Proof.
  intros Hp (p & Hb & Hpr & Hn)%view_inv. unfold view.
  rewrite (preserved_object_at _ _ _ _ Hp Hb),
    (preserved_object_at _ _ _ _ Hp Hpr). cbn.
  rewrite (preserved_node_at _ _ _ _ Hp Hn). by destruct v.
Qed.

Lemma preserved_length h h' : preserved h h' → length h ≤ length h'.
Proof.
  intros Hp. destruct (decide (length h = 0)) as [->|Hne]; [lia|].
  destruct (lookup_lt_is_Some_2 h (length h - 1)) as [c Hc]; [lia|].
  destruct (Hp _ _ Hc) as (c' & Hc' & _). apply lookup_lt_Some in Hc'. lia.
Qed.

Lemma pure_allocating_ret {A} (a : A) : pure_allocating (mret a).
Proof. intros h r h' [= _ <-]. apply preserved_refl. Qed.

Lemma pure_allocating_throw {A} e : pure_allocating (throw (A := A) e).
Proof. intros h r h' [= _ <-]. apply preserved_refl. Qed.

Lemma pure_allocating_lift {A} (r : result A) : pure_allocating (lift r).
Proof. intros h r' h' [= _ <-]. apply preserved_refl. Qed.

Lemma pure_allocating_read l : pure_allocating (read l).
Proof.
  intros h r h'. unfold read.
  destruct (h !! l); intros [= _ <-]; apply preserved_refl.
Qed.

Lemma pure_allocating_alloc o : pure_allocating (alloc o).
Proof.
  intros h r h' [= _ <-] l c Hl. exists c.
  by rewrite (lookup_app_l_Some _ _ _ _ Hl).
Qed.

Lemma pure_allocating_freeze l : pure_allocating (freeze l).
Proof.
  intros h r h'. unfold freeze. destruct (h !! l) as [c0|] eqn:Hl0.
  - intros [= _ <-] l' c Hl'. destruct (decide (l = l')) as [<-|Hne].
    + exists (Cell true (value c0)).
      rewrite list_lookup_insert_eq by (by eapply lookup_lt_Some).
      split_and!; [done | cbn; congruence | done].
    + exists c. by rewrite list_lookup_insert_ne.
  - intros [= _ <-]. apply preserved_refl.
Qed.

Lemma pure_allocating_bind {A B} (m : M A) (k : A → M B) :
  pure_allocating m → (∀ a, pure_allocating (k a)) →
  pure_allocating (m ≫= k).
Proof.
  intros Hm Hk h r h' [(a & h1 & Hma & Hka)|(e & Hma & _)]%bind_inv.
  - eapply preserved_trans; [by eapply Hm | by eapply Hk].
  - by eapply Hm.
Qed.

Create HintDb store.
#[local] Hint Resolve pure_allocating_ret pure_allocating_throw
  pure_allocating_lift pure_allocating_read pure_allocating_alloc
  pure_allocating_freeze : store.

Ltac allocating :=
  repeat first
    [ progress auto with store
    | apply pure_allocating_bind; [|intros ?]
    | match goal with
      | |- pure_allocating (match ?x with _ => _ end) => destruct x
      | |- pure_allocating (let _ := _ in _) => cbn zeta
      end ].

Lemma pure_allocating_read_node l : pure_allocating (read_node l).
Proof. unfold read_node. allocating. Qed.

Lemma pure_allocating_this_props c this : pure_allocating (this_props c this).
Proof. unfold this_props. allocating. Qed.

#[local] Hint Resolve pure_allocating_read_node pure_allocating_this_props
  : store.

Lemma pure_allocating_cloneWith l d :
  pure_allocating (OnConflictNode_cloneWith l d).
Proof. unfold OnConflictNode_cloneWith. allocating. Qed.

Lemma pure_allocating_cloneWithIndexWhere l f :
  pure_allocating (OnConflictNode_cloneWithIndexWhere l f).
Proof. unfold OnConflictNode_cloneWithIndexWhere. allocating. Qed.

Lemma pure_allocating_cloneWithIndexOrWhere l f :
  pure_allocating (OnConflictNode_cloneWithIndexOrWhere l f).
Proof. unfold OnConflictNode_cloneWithIndexOrWhere. allocating. Qed.

Lemma pure_allocating_cloneWithUpdateWhere l f :
  pure_allocating (OnConflictNode_cloneWithUpdateWhere l f).
Proof. unfold OnConflictNode_cloneWithUpdateWhere. allocating. Qed.

Lemma pure_allocating_cloneWithUpdateOrWhere l f :
  pure_allocating (OnConflictNode_cloneWithUpdateOrWhere l f).
Proof. unfold OnConflictNode_cloneWithUpdateOrWhere. allocating. Qed.

Lemma pure_allocating_new_OnConflictBuilder p :
  pure_allocating (new_OnConflictBuilder p).
Proof. unfold new_OnConflictBuilder. allocating. Qed.

Lemma pure_allocating_new_OnConflictDoNothingBuilder p :
  pure_allocating (new_OnConflictDoNothingBuilder p).
Proof. unfold new_OnConflictDoNothingBuilder. allocating. Qed.

Lemma pure_allocating_new_OnConflictUpdateBuilder p :
  pure_allocating (new_OnConflictUpdateBuilder p).
Proof. unfold new_OnConflictUpdateBuilder. allocating. Qed.

Lemma pure_allocating_props_with props n :
  pure_allocating (props_with props n).
Proof. unfold props_with. allocating. Qed.

#[local] Hint Resolve pure_allocating_cloneWith
  pure_allocating_cloneWithIndexWhere pure_allocating_cloneWithIndexOrWhere
  pure_allocating_cloneWithUpdateWhere pure_allocating_cloneWithUpdateOrWhere
  pure_allocating_new_OnConflictBuilder
  pure_allocating_new_OnConflictDoNothingBuilder
  pure_allocating_new_OnConflictUpdateBuilder pure_allocating_props_with
  : store.

(** Whatever the receiver, the call and the outcome. *)
Lemma pure_allocating_method cls c m this :
  method cls c = Some m → pure_allocating (m this).
Proof.
  destruct cls, c; intros [= <-];
    unfold OnConflictBuilder_column, OnConflictBuilder_columns,
      OnConflictBuilder_constraint, OnConflictBuilder_expression,
      OnConflictBuilder_where, OnConflictBuilder_whereRef,
      OnConflictBuilder_orWhere, OnConflictBuilder_orWhereRef,
      OnConflictBuilder_whereExists, OnConflictBuilder_whereNotExists,
      OnConflictBuilder_orWhereExists, OnConflictBuilder_orWhereNotExists,
      OnConflictBuilder_doNothing, OnConflictBuilder_doUpdateSet,
      OnConflictDoNothingBuilder_toOperationNode,
      OnConflictUpdateBuilder_where, OnConflictUpdateBuilder_whereRef,
      OnConflictUpdateBuilder_orWhere, OnConflictUpdateBuilder_orWhereRef,
      OnConflictUpdateBuilder_whereExists,
      OnConflictUpdateBuilder_whereNotExists,
      OnConflictUpdateBuilder_orWhereExists,
      OnConflictUpdateBuilder_orWhereNotExists,
      OnConflictUpdateBuilder_toOperationNode;
    allocating.
Qed.

Lemma pure_allocating_invoke this c : pure_allocating (invoke this c).
Proof.
  unfold invoke, not_a_function.
  apply pure_allocating_bind; [auto with store|]. intros [| |cls p].
  1-2: auto with store.
  destruct (method cls c) eqn:Hm; [|auto with store].
  by eapply pure_allocating_method.
Qed.

Lemma pure_allocating_chain cs : ∀ this, pure_allocating (chain this cs).
Proof.
  induction cs as [|c cs IH]; intros this; cbn.
  - auto with store.
  - apply pure_allocating_bind; [apply pure_allocating_invoke | auto].
Qed.
(** * The predicate composition algebra *)

Lemma node_at_derived h c n ctx : node_at (derived h c n ctx) (length h) = Some n.
Proof.
  unfold node_at, object_at, derived.
  by rewrite (lookup_app_r h), Nat.sub_diag by lia.
Qed.

(** C1, as amended: on a Conflict Target Builder whose index predicate is
    [w] (absent or not), [where(a1).orWhere(a2).where(a3)] with fragments
    [p1], [p2], [p3] yields the index predicate
    [((w AND p1) OR p2) AND p3], where joining onto an absent [w] leaves
    [p1] alone; so on a builder with no index predicate yet the result is
    [(p1 OR p2) AND p3].  In no case is the result a disjunction: the
    fragments are composed in call order and never re-associated into
    [p1 OR (p2 AND p3)]. *)
Theorem C1_where_chain_composes_left_to_right h this v a1 a2 a3 p1 p2 p3 :
  view h this = Some v → class v = OnConflictBuilderClass →
  parseWhereFilter (context v) a1 = Ok p1 →
  parseWhereFilter (context v) a2 = Ok p2 →
  parseWhereFilter (context v) a3 = Ok p3 →
  ∃ b h' v',
    chain this [call_where a1; call_orWhere a2; call_where a3] h = (Ok b, h') ∧
    view h' b = Some v' ∧
    class v' = OnConflictBuilderClass ∧
    indexWhere (node v') =
      Some (AndNode (OrNode (Predicate_and (indexWhere (node v)) p1) p2) p3) ∧
    (indexWhere (node v) = None →
     indexWhere (node v') = Some (AndNode (OrNode p1 p2) p3)) ∧
    (∀ x y, indexWhere (node v') ≠ Some (OrNode x y)).
Proof.
  intros Hv Hc H1 H2 H3. cbn [chain].
  pose proof (target_where_family_run h this v (call_where a1) _ _ Hv Hc eq_refl)
    as R1.
  rewrite H1 in R1. rewrite (bind_run _ _ _ _ _ R1). clear R1.
  set (n1 := set_indexWhere _ (node v)).
  pose proof (view_derived h OnConflictBuilderClass n1 (context v)) as Hv1.
  set (h1 := derived h _ n1 _) in *.
  pose proof (target_where_family_run h1 _ _ (call_orWhere a2) _ _
                Hv1 eq_refl eq_refl) as R2.
  cbn [context] in R2. rewrite H2 in R2.
  rewrite (bind_run _ _ _ _ _ R2). clear R2. cbn [node] in *.
  set (n2 := set_indexWhere _ n1).
  pose proof (view_derived h1 OnConflictBuilderClass n2 (context v)) as Hv2.
  set (h2 := derived h1 _ n2 _) in *.
  pose proof (target_where_family_run h2 _ _ (call_where a3) _ _
                Hv2 eq_refl eq_refl) as R3.
  cbn [context] in R3. rewrite H3 in R3.
  rewrite (bind_run _ _ _ _ _ R3). clear R3. cbn [node] in *.
  set (n3 := set_indexWhere _ n2).
  eexists _, _, _. split; [reflexivity|].
  split; [apply view_derived|]. cbn.
  split_and!; [done | done | by intros -> | done].
Qed.

(** C2: on a Conflict Target Builder whose descriptor has no index predicate
    yet, one [where] call, and likewise one [orWhere] call, whose arguments
    parse to the fragment [p] yields a builder whose descriptor has exactly
    [p] as its index predicate, unwrapped, and is otherwise the receiver's
    descriptor. *)
Theorem C2_first_predicate_is_stored_as_is h this v args p :
  view h this = Some v → class v = OnConflictBuilderClass →
  indexWhere (node v) = None →
  parseWhereFilter (context v) args = Ok p →
  (∃ b h' v',
     OnConflictBuilder_where this args h = (Ok b, h') ∧
     view h' b = Some v' ∧
     indexWhere (node v') = Some p ∧
     node v' = set_indexWhere (Some p) (node v)) ∧
  (∃ b h' v',
     OnConflictBuilder_orWhere this args h = (Ok b, h') ∧
     view h' b = Some v' ∧
     indexWhere (node v') = Some p ∧
     node v' = set_indexWhere (Some p) (node v)).
Proof.
  intros Hv Hc Hw Hp. split.
  - rewrite (where_run _ _ _ _ Hv Hc), Hp, Hw.
    eexists _, _, _. split; [reflexivity|]. split; [apply view_derived|done].
  - rewrite (orWhere_run _ _ _ _ Hv Hc), Hp, Hw.
    eexists _, _, _. split; [reflexivity|]. split; [apply view_derived|done].
Qed.

(** C5: on an Update Action Builder each of the eight where-family methods,
    when its arguments parse to a fragment [f], returns an Update Action
    Builder whose descriptor differs from the receiver's in [updateWhere]
    only: the fragment is AND- or OR-joined onto the previous update
    predicate, and the target ([columns], [constraint], [indexExpression]),
    the index predicate and the value mapping are the receiver's. *)
Theorem C5_update_predicates_touch_updateWhere_only h this v c conj f :
  view h this = Some v → class v = OnConflictUpdateBuilderClass →
  fragment (context v) c = Some (conj, Ok f) →
  ∃ b h' v',
    invoke this c h = (Ok b, h') ∧
    view h' b = Some v' ∧
    class v' = OnConflictUpdateBuilderClass ∧
    updateWhere (node v') = Some (join conj (updateWhere (node v)) f) ∧
    columns (node v') = columns (node v) ∧
    constraint (node v') = constraint (node v) ∧
    indexExpression (node v') = indexExpression (node v) ∧
    indexWhere (node v') = indexWhere (node v) ∧
    updates (node v') = updates (node v) ∧
    doNothing (node v') = doNothing (node v).
Proof.
  intros Hv Hc Hf.
  rewrite (update_where_family_run _ _ _ _ _ _ Hv Hc Hf).
  eexists _, _, _. split; [reflexivity|]. split; [apply view_derived|].
  by cbn.
Qed.
(** * Immutability *)

Lemma view_in_store h this v : view h this = Some v →
  this < length h ∧ node_loc v < length h.
Proof.
  intros (p & Hb & _ & Hn)%view_inv. unfold node_at, object_at in *.
  destruct (h !! this) eqn:H1; [|done].
  destruct (h !! node_loc v) eqn:H2; [|done].
  split; by eapply lookup_lt_Some.
Qed.

Lemma object_at_fresh h l : length h ≤ l → object_at h l = None.
Proof. intros Hl. unfold object_at. by rewrite lookup_ge_None_2. Qed.

(** C3: a method call, whatever its receiver, arguments and outcome, leaves
    every object of the store as it was, so the receiver still holds the
    descriptor it held.  A builder operation called on a builder of the
    class that defines it, with arguments the parsers accept, returns; and
    what it returns is a builder that did not exist before, holding a
    descriptor object that did not exist before.  And a descriptor extracted
    from a terminal builder [u] before the call is the one extracted from
    [u] after the call and any further chain of calls on the builders
    derived from it: same reference, same content. *)
Theorem C3_calls_leave_the_receiver_untouched h this c r h1 :
  invoke this c h = (r, h1) →
  (∀ l o, object_at h l = Some o → object_at h1 l = Some o) ∧
  (∀ v, view h this = Some v →
     view h1 this = Some v ∧
     (is_Some (method (class v) c) → parses (context v) c = true →
      ∃ b, r = Ok b) ∧
     ∀ b, r = Ok b → c ≠ call_toOperationNode →
       b ≠ this ∧ object_at h b = None ∧
       ∃ v', view h1 b = Some v' ∧
             node_loc v' ≠ node_loc v ∧ object_at h (node_loc v') = None) ∧
  (∀ u v b cs r2 h2,
     view h u = Some v → class v ≠ OnConflictBuilderClass →
     r = Ok b → chain b cs h1 = (r2, h2) →
     invoke u call_toOperationNode h = (Ok (node_loc v), h) ∧
     node_at h (node_loc v) = Some (node v) ∧
     invoke u call_toOperationNode h2 = (Ok (node_loc v), h2) ∧
     node_at h2 (node_loc v) = Some (node v)).
Proof.
  intros Hi. pose proof (pure_allocating_invoke _ _ _ _ _ Hi) as Hp.
  split_and!.
  - intros l o. by apply preserved_object_at.
  - intros v Hv. split; [by eapply preserved_view|]. split.
    { intros Hm Hps.
      destruct (invoke_returns _ _ _ _ Hv Hm Hps) as (b & h' & Hr).
      rewrite Hr in Hi. injection Hi as <- _. eauto. }
    intros b -> Hc.
    destruct (invoke_derived _ _ _ _ _ _ Hv Hc Hi) as (cls & n & -> & -> & _).
    destruct (view_in_store _ _ _ Hv) as [Ht Hn].
    split; [lia|]. split; [apply object_at_fresh; lia|].
    eexists. split; [apply view_derived|]. cbn.
    split; [lia|by apply object_at_fresh].
  - intros u v b cs r2 h2 Hv Hc -> Hch.
    pose proof (pure_allocating_chain _ _ _ _ _ Hch) as Hp2.
    pose proof (preserved_trans _ _ _ Hp Hp2) as Hp3.
    pose proof (preserved_view _ _ _ _ Hp3 Hv) as Hv2.
    destruct (view_inv _ _ _ Hv) as (_ & _ & _ & Hn).
    destruct (view_inv _ _ _ Hv2) as (_ & _ & _ & Hn2).
    split_and!; [by apply toOperationNode_run | done
                | by apply toOperationNode_run | done].
Qed.

(** * The conflict target *)

(** C4: a chain of [column] / [columns] calls on a Conflict Target Builder
    returns a Conflict Target Builder whose column list is the list the
    receiver had (none counting as empty) followed by all supplied names in
    call order, kept as supplied: nothing is dropped, merged or moved.  So on
    a builder without a column list the result is exactly the concatenation
    of the supplied names, the list being created by the first call; with no
    call at all the column list is what it was. *)
Theorem C4_columns_accumulate_in_call_order cs : ∀ h this v,
  view h this = Some v → class v = OnConflictBuilderClass →
  forallb is_column_call cs = true →
  ∃ b h' v',
    chain this cs h = (Ok b, h') ∧
    view h' b = Some v' ∧
    class v' = OnConflictBuilderClass ∧
    columns (node v') =
      match cs with
      | [] => columns (node v)
      | _ :: _ =>
          Some (default [] (columns (node v)) ++
                map ColumnNode_create (supplied_names cs))
      end.
Proof.
  induction cs as [|c cs IH]; intros h this v Hv Hc Hcs.
  - by exists this, h, v.
  - cbn in Hcs. apply andb_prop in Hcs as [Hcol Hcs]. cbn [chain].
    assert (∃ ns, supplied c = Some ns ∧
      invoke this c h =
        (Ok (S (S (length h))),
         derived h OnConflictBuilderClass
           (set_columns
              (Some (default [] (columns (node v)) ++ map ColumnNode_create ns))
              (node v)) (context v))) as (ns & Hns & Hrun).
    { rewrite (invoke_run _ _ _ _ Hv), Hc.
      destruct c; try discriminate Hcol; cbn; eexists; (split; [done|]);
        run_method Hv Hc; by destruct (columns (node v)). }
    rewrite (bind_run _ _ _ _ _ Hrun).
    set (n1 := set_columns _ (node v)).
    destruct (IH _ _ _ (view_derived h OnConflictBuilderClass n1 (context v))
                eq_refl Hcs) as (b & h' & v' & -> & Hv' & Hc' & Hcols).
    exists b, h', v'. split_and!; [done..|].
    rewrite Hcols. cbn [node columns set_columns supplied_names n1].
    rewrite Hns.
    destruct cs; cbn.
    + by rewrite app_nil_r.
    + by rewrite !map_app, !app_assoc.
Qed.

(** C10: on any receiver, [column(c)] is the same computation as
    [columns([c])], and on a Conflict Target Builder both return a builder
    whose column list is the receiver's (none counting as empty) with [c]
    appended and whose other keys are the receiver's; [columns([])] returns
    a builder whose column list is present and has the contents the
    receiver's list had, so it is the empty list if the receiver had none,
    and whose other keys are the receiver's. *)
Theorem C10_column_is_columns_of_one h this v c :
  view h this = Some v → class v = OnConflictBuilderClass →
  OnConflictBuilder_column this c h = OnConflictBuilder_columns this [c] h ∧
  (∃ b h' v',
     OnConflictBuilder_columns this [c] h = (Ok b, h') ∧
     OnConflictBuilder_column this c h = (Ok b, h') ∧
     view h' b = Some v' ∧
     class v' = OnConflictBuilderClass ∧
     columns (node v') =
       Some (default [] (columns (node v)) ++ [ColumnNode_create c]) ∧
     constraint (node v') = constraint (node v) ∧
     indexExpression (node v') = indexExpression (node v) ∧
     indexWhere (node v') = indexWhere (node v) ∧
     updates (node v') = updates (node v) ∧
     updateWhere (node v') = updateWhere (node v) ∧
     doNothing (node v') = doNothing (node v) ∧
     node v' =
       set_columns
         (Some (default [] (columns (node v)) ++ [ColumnNode_create c]))
         (node v)) ∧
  (∃ b h' v',
     OnConflictBuilder_columns this [] h = (Ok b, h') ∧
     view h' b = Some v' ∧
     class v' = OnConflictBuilderClass ∧
     columns (node v') = Some (default [] (columns (node v))) ∧
     (columns (node v) = None → columns (node v') = Some []) ∧
     constraint (node v') = constraint (node v) ∧
     indexExpression (node v') = indexExpression (node v) ∧
     indexWhere (node v') = indexWhere (node v) ∧
     updates (node v') = updates (node v) ∧
     updateWhere (node v') = updateWhere (node v) ∧
     doNothing (node v') = doNothing (node v) ∧
     node v' = set_columns (Some (default [] (columns (node v)))) (node v)).
Proof.
  intros Hv Hc. split_and!.
  - done.
  - change (OnConflictBuilder_column this c h)
      with (OnConflictBuilder_columns this [c] h).
    rewrite (columns_run _ _ _ _ Hv Hc).
    eexists _, _, _. split; [reflexivity|]. split; [reflexivity|].
    split; [apply view_derived|]. cbn.
    by destruct (columns (node v)).
  - rewrite (columns_run _ _ _ _ Hv Hc).
    eexists _, _, _. split; [reflexivity|]. split; [apply view_derived|].
    cbn. destruct (columns (node v)) as [cs|]; cbn.
    + by rewrite app_nil_r.
    + done.
Qed.

(** C6: on a Conflict Target Builder, [constraint(name)] returns a builder
    whose descriptor has the constraint [name], whatever constraint the
    receiver had, and is the receiver's descriptor in every other key: a
    column list that was there is still there, unchanged.  [expression(e)]
    does the same to the expression slot. *)
Theorem C6_constraint_and_expression_replace_one_slot h this v :
  view h this = Some v → class v = OnConflictBuilderClass →
  (∀ name, ∃ b h' v',
     OnConflictBuilder_constraint this name h = (Ok b, h') ∧
     view h' b = Some v' ∧
     class v' = OnConflictBuilderClass ∧
     constraint (node v') = Some (IdentifierNode_create name) ∧
     columns (node v') = columns (node v) ∧
     node v' = set_constraint (Some (IdentifierNode_create name)) (node v)) ∧
  (∀ e, ∃ b h' v',
     OnConflictBuilder_expression this e h = (Ok b, h') ∧
     view h' b = Some v' ∧
     class v' = OnConflictBuilderClass ∧
     indexExpression (node v') = Some (RawBuilder_toOperationNode e) ∧
     columns (node v') = columns (node v) ∧
     node v' =
       set_indexExpression (Some (RawBuilder_toOperationNode e)) (node v)).
Proof.
  intros Hv Hc. split.
  - intros name. rewrite (constraint_run _ _ _ _ Hv Hc).
    eexists _, _, _. split; [reflexivity|]. by split; [apply view_derived|].
  - intros e. rewrite (expression_run _ _ _ _ Hv Hc).
    eexists _, _, _. split; [reflexivity|]. by split; [apply view_derived|].
Qed.

(** * The terminal calls *)

(** Every Conflict Target Builder a chain of calls reaches from a builder
    with no action chosen has no action chosen. *)
Lemma chain_undecided cs : ∀ h this v b h' v',
  view h this = Some v →
  (class v = OnConflictBuilderClass → undecided (node v)) →
  chain this cs h = (Ok b, h') →
  view h' b = Some v' → class v' = OnConflictBuilderClass →
  undecided (node v').
Proof.
  induction cs as [|c cs IH]; intros h this v b h' v' Hv Hinv Hch Hv' Hc'.
  - cbn in Hch. injection Hch as <- <-. rewrite Hv in Hv'.
    injection Hv' as <-. auto.
  - cbn [chain] in Hch.
    apply bind_inv in Hch as [(b1 & h1 & Hi & Hch)|(e & _ & [=])].
    assert (c = call_toOperationNode ∨ c ≠ call_toOperationNode)
      as [->|Hne] by (destruct c; (by left) || by right).
    + destruct (decide (class v = OnConflictBuilderClass)) as [Hc|Hc].
      { rewrite (invoke_run _ _ _ _ Hv), Hc in Hi. discriminate Hi. }
      rewrite (toOperationNode_run _ _ _ Hv Hc) in Hi. injection Hi as <- <-.
      destruct (view_inv _ _ _ Hv) as (_ & _ & _ & Hn).
      destruct cs as [|c' cs]; cbn [chain] in Hch.
      * injection Hch as <- <-. by rewrite (view_node _ _ _ Hn) in Hv'.
      * by rewrite (bind_throw _ _ _ _ _ (invoke_node _ _ _ c' Hn)) in Hch.
    + destruct (invoke_derived _ _ _ _ _ _ Hv Hne Hi)
        as (cls & n & -> & -> & Hcls).
      eapply (IH _ _ _ _ _ _ (view_derived h cls n (context v))); [|done..].
      cbn. intros Hk. destruct (Hcls Hk) as (Hcv & Hd & Hu & Hw).
      destruct (Hinv Hcv) as [Ha Huw]. unfold undecided, action in *.
      by rewrite Hd, Hu, Hw.
Qed.

(** In particular every Conflict Target Builder derived from the empty
    descriptor the enclosing statement builder starts with. *)
Lemma target_lineage_undecided ctx cs h b h' v' :
  (t ← target ctx; chain t cs) h = (Ok b, h') →
  view h' b = Some v' → class v' = OnConflictBuilderClass →
  undecided (node v').
Proof.
  assert (target ctx h =
    (Ok (S (S (length h))), derived h OnConflictBuilderClass no_props ctx))
    as Ht.
  { unfold target, OnConflictNode_create.
    rewrite (bind_run _ _ _ _ _ (alloc_freeze_run _ _)).
    apply (props_new_run OnConflictBuilderClass h _
             {| onConflictNode := 0; parseContext := ctx |}). }
  rewrite (bind_run _ _ _ _ _ Ht).
  apply (chain_undecided cs _ _ _ _ _ _
           (view_derived h OnConflictBuilderClass no_props ctx)).
  by intros _.
Qed.

(** C7: on a Conflict Target Builder, which has no action chosen yet (see
    [target_lineage_undecided]), [doUpdateSet(mapping)] with a mapping that
    parses to [m] returns an Update Action Builder whose descriptor has the
    action Update with value mapping [m] and no update predicate, and whose
    target keys and index predicate are the receiver's. *)
Theorem C7_doUpdateSet_sets_the_update_action h this v us m :
  view h this = Some v → class v = OnConflictBuilderClass →
  undecided (node v) →
  parseUpdateObject (context v) us = Ok m →
  ∃ b h' v',
    OnConflictBuilder_doUpdateSet this us h = (Ok b, h') ∧
    view h' b = Some v' ∧
    class v' = OnConflictUpdateBuilderClass ∧
    action (node v') = Update m None ∧
    updates (node v') = Some m ∧
    updateWhere (node v') = None ∧
    columns (node v') = columns (node v) ∧
    constraint (node v') = constraint (node v) ∧
    indexExpression (node v') = indexExpression (node v) ∧
    indexWhere (node v') = indexWhere (node v).
Proof.
  intros Hv Hc [Ha Hw] Hm. rewrite (doUpdateSet_run _ _ _ _ Hv Hc), Hm.
  eexists _, _, _. split; [reflexivity|]. split; [apply view_derived|]. cbn.
  split_and!; try done.
  unfold action in *. cbn. rewrite Hw.
  by destruct (doNothing (node v)) as [[]|].
Qed.

(** C8: on a Conflict Target Builder, [doNothing()] returns a No-op Action
    Builder whose descriptor is the receiver's with [doNothing] set, so its
    action is Ignore and every other key is the receiver's; and
    [toOperationNode()] on that builder returns the very node it holds,
    without touching the store. *)
Theorem C8_doNothing_sets_the_ignore_action h this v :
  view h this = Some v → class v = OnConflictBuilderClass →
  ∃ b h' v',
    OnConflictBuilder_doNothing this h = (Ok b, h') ∧
    view h' b = Some v' ∧
    class v' = OnConflictDoNothingBuilderClass ∧
    node v' = set_doNothing (Some true) (node v) ∧
    action (node v') = Ignore ∧
    columns (node v') = columns (node v) ∧
    constraint (node v') = constraint (node v) ∧
    indexExpression (node v') = indexExpression (node v) ∧
    indexWhere (node v') = indexWhere (node v) ∧
    OnConflictDoNothingBuilder_toOperationNode b h' = (Ok (node_loc v'), h') ∧
    node_at h' (node_loc v') = Some (node v').
Proof.
  intros Hv Hc. rewrite (doNothing_run _ _ _ Hv Hc).
  eexists _, _, _. split; [reflexivity|].
  pose proof (view_derived h OnConflictDoNothingBuilderClass
                (set_doNothing (Some true) (node v)) (context v)) as Hv'.
  split; [exact Hv'|]. cbn. split_and!; try done.
  - by rewrite (doNothing_toOperationNode_run _ _ _ Hv' eq_refl).
  - apply node_at_derived.
Qed.

(** C9: the builder [doNothing()] returns rejects every call but the
    extraction: the call is a [TypeError] and the store is as it was.  The
    builder [doUpdateSet(m)] returns rejects, in the same way, the six calls
    [column], [columns], [constraint], [expression], [doNothing] and
    [doUpdateSet]; it accepts the eight where-family calls, each of which
    returns a builder as soon as its arguments parse. *)
Theorem C9_terminal_builders_reject_further_chaining h this v :
  view h this = Some v → class v = OnConflictBuilderClass →
  (∀ d h1 c,
     invoke this call_doNothing h = (Ok d, h1) →
     c ≠ call_toOperationNode →
     invoke d c h1 = (Throw (TypeError "is not a function"), h1)) ∧
  (∀ us u h1 c,
     invoke this (call_doUpdateSet us) h = (Ok u, h1) →
     (where_family c = false → c ≠ call_toOperationNode →
      invoke u c h1 = (Throw (TypeError "is not a function"), h1)) ∧
     (∀ conj f, fragment (context v) c = Some (conj, Ok f) →
      ∃ b h2, invoke u c h1 = (Ok b, h2))).
Proof.
  intros Hv Hc. split.
  - intros d h1 c. rewrite (invoke_run _ _ _ _ Hv), Hc. cbn.
    rewrite (doNothing_run _ _ _ Hv Hc). intros [= <- <-] Hne.
    rewrite (invoke_run _ _ _ _ (view_derived _ _ _ _)). cbn.
    by destruct c.
  - intros us u h1 c. rewrite (invoke_run _ _ _ _ Hv), Hc. cbn.
    rewrite (doUpdateSet_run _ _ _ _ Hv Hc).
    destruct (parseUpdateObject (context v) us) as [m|e]; [|done].
    intros [= <- <-].
    pose proof (view_derived h OnConflictUpdateBuilderClass
                  (set_updates (Some m) (node v)) (context v)) as Hu.
    split.
    + intros Hw Hne. rewrite (invoke_run _ _ _ _ Hu). cbn.
      by destruct c.
    + intros conj f Hf.
      rewrite (update_where_family_run _ _ _ _ _ _ Hu eq_refl Hf). eauto.
Qed.

(** * The builders as values *)

(** The store-level methods refine [transition]: on a builder, a call other
    than the extraction does to the descriptor what [transition] says, and
    allocates the three cells of the builder it returns. *)
Lemma invoke_transition h this v c :
  view h this = Some v → c ≠ call_toOperationNode →
  invoke this c h =
    match transition (class v) (node v) (context v) c with
    | Some (Ok (cls, n)) =>
        (Ok (S (S (length h))), derived h cls n (context v))
    | Some (Throw e) => (Throw e, h)
    | None => (Throw (TypeError "is not a function"), h)
    end.
Proof.
  intros Hv Hc. rewrite (invoke_run _ _ _ _ Hv).
  destruct (class v) eqn:Hcls, c; try done; cbn;
    run_method Hv Hcls;
    repeat match goal with
           | |- context [match ?r with Ok _ => _ | Throw _ => _ end] =>
               destruct r
           end;
    done.
Qed.




Lemma observe_derived h cls n ctx :
  observe (Ok (S (S (length h))), derived h cls n ctx) = Ok (Some (cls, n, ctx)).
Proof. unfold observe. by rewrite view_derived. Qed.

Lemma call_eq_toOperationNode (c : Call) :
  c = call_toOperationNode ∨ c ≠ call_toOperationNode.
Proof. destruct c; (by left) || by right. Qed.

(** ** Errors *)



(** X12: the descriptor can be extracted from the two terminal builders
    only.  On a Conflict Target Builder [toOperationNode] is not defined and
    calling it is a [TypeError]; on a No-op or Update Action Builder it
    returns a reference to a node whose content is the descriptor the
    builder holds, and the store is as it was, so that extracting again
    returns the same reference. *)
Theorem X12_extraction_from_terminal_builders_only h this v :
  view h this = Some v →
  (class v = OnConflictBuilderClass →
   invoke this call_toOperationNode h =
     (Throw (TypeError "is not a function"), h)) ∧
  (class v ≠ OnConflictBuilderClass →
   ∃ n, invoke this call_toOperationNode h = (Ok n, h) ∧
        node_at h n = Some (node v) ∧
        chain this [call_toOperationNode] h = (Ok n, h)).
Proof.
  intros Hv. split.
  - intros Hc. by rewrite (invoke_run _ _ _ _ Hv), Hc.
  - intros Hc. exists (node_loc v).
    destruct (view_inv _ _ _ Hv) as (_ & _ & _ & Hn).
    pose proof (toOperationNode_run _ _ _ Hv Hc) as Hrun.
    split_and!; [done..|]. cbn [chain]. by rewrite (bind_run _ _ _ _ _ Hrun).
Qed.

(** X7: the methods cannot be borrowed across the classes.  The body of a
    method of one builder class, run with a builder of another class as its
    [this], stops at its first access to the private [#props] with a
    [TypeError], before any parser is called and with the store as it
    was. *)
Theorem X7_methods_check_the_class_of_this cls c m h this v :
  method cls c = Some m →
  view h this = Some v → class v ≠ cls →
  ∃ message, m this h = (Throw (TypeError message), h).
Proof.
  intros Hm Hv Hc.
  destruct (this_props_other _ _ _ _ Hv Hc) as (msg & Hp). exists msg.
  destruct cls, c; cbn in Hm; try discriminate Hm; injection Hm as <-;
    unfold OnConflictBuilder_column, OnConflictBuilder_columns,
      OnConflictBuilder_constraint, OnConflictBuilder_expression,
      OnConflictBuilder_where, OnConflictBuilder_whereRef,
      OnConflictBuilder_orWhere, OnConflictBuilder_orWhereRef,
      OnConflictBuilder_whereExists, OnConflictBuilder_whereNotExists,
      OnConflictBuilder_orWhereExists, OnConflictBuilder_orWhereNotExists,
      OnConflictBuilder_doNothing, OnConflictBuilder_doUpdateSet,
      OnConflictDoNothingBuilder_toOperationNode,
      OnConflictUpdateBuilder_where, OnConflictUpdateBuilder_whereRef,
      OnConflictUpdateBuilder_orWhere, OnConflictUpdateBuilder_orWhereRef,
      OnConflictUpdateBuilder_whereExists,
      OnConflictUpdateBuilder_whereNotExists,
      OnConflictUpdateBuilder_orWhereExists,
      OnConflictUpdateBuilder_orWhereNotExists,
      OnConflictUpdateBuilder_toOperationNode;
    cbn zeta; by rewrite (bind_throw _ _ _ _ _ Hp).
Qed.
(** ** Chains *)

(** A chain that goes on from a reference to a node goes nowhere. *)
Lemma chain_node cs h l n r h' :
  node_at h l = Some n → chain l cs h = (r, h') →
  h' = h ∧ observe (r, h') =
    match cs with
    | [] => Ok None
    | _ :: _ => Throw (TypeError "is not a function")
    end.
Proof.
  intros Hn. destruct cs as [|c cs]; cbn [chain].
  - intros [= <- <-]. split; [done|]. cbn. by rewrite (view_node _ _ _ Hn).
  - rewrite (bind_throw _ _ _ _ _ (invoke_node _ _ _ c Hn)).
    by intros [= <- <-].
Qed.

(** One step of a chain on a builder, by cases on what the first call does. *)
Lemma chain_step h this v c cs :
  view h this = Some v →
  chain this (c :: cs) h =
    if is_extraction c then
      if bool_decide (class v = OnConflictBuilderClass)
      then (Throw (TypeError "is not a function"), h)
      else chain (node_loc v) cs h
    else
      match transition (class v) (node v) (context v) c with
      | Some (Ok (cls, n)) =>
          chain (S (S (length h))) cs (derived h cls n (context v))
      | Some (Throw e) => (Throw e, h)
      | None => (Throw (TypeError "is not a function"), h)
      end.
Proof.
  intros Hv. cbn [chain].
  destruct (call_eq_toOperationNode c) as [->|Hc].
  - cbn. case_bool_decide as Hcls.
    + apply bind_throw. by rewrite (invoke_run _ _ _ _ Hv), Hcls.
    + by rewrite (bind_run _ _ _ _ _ (toOperationNode_run _ _ _ Hv Hcls)).
  - replace (is_extraction c) with false by (by destruct c).
    pose proof (invoke_transition _ _ _ _ Hv Hc) as Hi.
    destruct (transition _ _ _ _) as [[[cls n]|e]|].
    + by rewrite (bind_run _ _ _ _ _ Hi).
    + by rewrite (bind_throw _ _ _ _ _ Hi).
    + by rewrite (bind_throw _ _ _ _ _ Hi).
Qed.

(** What [transition] keeps, every chain keeps. *)
Lemma chain_invariant (I : BuilderClass → OnConflictNode → Prop) ctx :
  (∀ cls n c cls' n',
     I cls n → transition cls n ctx c = Some (Ok (cls', n')) → I cls' n') →
  ∀ cs h this v b h' v',
    view h this = Some v → context v = ctx → I (class v) (node v) →
    chain this cs h = (Ok b, h') → view h' b = Some v' →
    context v' = ctx ∧ I (class v') (node v').
Proof.
  intros Hstep.
  induction cs as [|c cs IH]; intros h this v b h' v' Hv Hctx HI Hch Hv'.
  - cbn in Hch. injection Hch as <- <-. rewrite Hv in Hv'.
    by injection Hv' as <-.
  - rewrite (chain_step _ _ _ _ _ Hv) in Hch.
    destruct (view_inv _ _ _ Hv) as (_ & _ & _ & Hn).
    destruct (is_extraction c).
    + case_bool_decide; [done|].
      destruct (chain_node _ _ _ _ _ _ Hn Hch) as [-> Hobs].
      destruct cs; [|done]. cbn in Hobs. by rewrite Hv' in Hobs.
    + rewrite Hctx in Hch.
      destruct (transition _ _ _ _) as [[[cls n]|e]|] eqn:Ht; [|done..].
      eapply (IH _ _ _ _ _ _ (view_derived h cls n ctx)); eauto.
Qed.

(** X5: every builder a chain of calls returns has the parse context of the
    builder the chain started from: the context the parsers are given never
    changes within a conflict clause. *)
Theorem X5_parse_context_is_handed_down cs h this v b h' v' :
  view h this = Some v →
  chain this cs h = (Ok b, h') → view h' b = Some v' →
  context v' = context v.
Proof.
  intros Hv Hch Hv'.
  by apply (chain_invariant (λ _ _, True) (context v) (λ _ _ _ _ _ _ _, I)
              cs h this v b h' v').
Qed.

(** X11: the class of a builder tells the action of its descriptor.  Along
    any chain that starts from a builder for which this holds (such as a
    Conflict Target Builder with no action chosen), a Conflict Target
    Builder has no action and no update predicate, a No-op Action Builder
    has the action Ignore and no value mapping, and an Update Action Builder
    has the action Update: no call ever takes a choice of action back. *)
Theorem X11_class_tells_the_action cs h this v b h' v' :
  view h this = Some v → action_of_class (class v) (node v) →
  chain this cs h = (Ok b, h') → view h' b = Some v' →
  action_of_class (class v') (node v').
Proof.
  intros Hv HI Hch Hv'.
  refine (proj2 (chain_invariant action_of_class (context v) _
                   cs h this v b h' v' Hv eq_refl HI Hch Hv')).
  clear. intros cls n c cls' n' HI.
  destruct cls, c; cbn;
    repeat match goal with
           | |- context [match ?r with Ok _ => _ | Throw _ => _ end] =>
               destruct r
           end;
    intros [= <- <-]; cbn in HI |- *; unfold action in *; cbn;
    try done;
    try (destruct HI as [Ha Hw]; rewrite ?Hw;
         destruct (doNothing n) as [[]|], (updates n); try done; eauto);
    try (destruct HI as [m Hm];
         destruct (doNothing n) as [[]|], (updates n); try done; eauto).
Qed.
(** ** The where family *)

Lemma parsed_fragment_inv ctx c cj f :
  parsed_fragment ctx c = Some (cj, f) → fragment ctx c = Some (cj, Ok f).
Proof.
  unfold parsed_fragment. destruct (fragment ctx c) as [[cj' [f'|e]]|]; [|done..].
  by intros [= -> ->].
Qed.

Lemma set_indexWhere_same n : set_indexWhere (indexWhere n) n = n.
Proof. by destruct n. Qed.

Lemma set_updateWhere_same n : set_updateWhere (updateWhere n) n = n.
Proof. by destruct n. Qed.

(** The descriptor a chain of where-family calls leaves on a Conflict Target
    Builder. *)
Lemma index_predicate_fold cs : ∀ h this v frs,
  view h this = Some v → class v = OnConflictBuilderClass →
  mapM (parsed_fragment (context v)) cs = Some frs →
  ∃ b h' v',
    chain this cs h = (Ok b, h') ∧
    view h' b = Some v' ∧
    class v' = OnConflictBuilderClass ∧
    node v' = set_indexWhere (compose (indexWhere (node v)) frs) (node v).
Proof.
  induction cs as [|c cs IH]; intros h this v frs Hv Hc Hfrs.
  - injection Hfrs as <-. exists this, h, v. cbn.
    by rewrite set_indexWhere_same.
  - cbn in Hfrs.
    destruct (parsed_fragment (context v) c) as [[cj f]|] eqn:Hf; [|done].
    destruct (mapM _ cs) as [frs'|] eqn:Hfrs'; [|done].
    cbn in Hfrs. injection Hfrs as <-. apply parsed_fragment_inv in Hf.
    cbn [chain].
    rewrite (bind_run _ _ _ _ _
               (target_where_family_run _ _ _ _ _ _ Hv Hc Hf)).
    set (n1 := set_indexWhere _ (node v)).
    destruct (IH _ _ _ frs'
                (view_derived h OnConflictBuilderClass n1 (context v))
                eq_refl Hfrs') as (b & h' & v' & -> & Hv' & Hc' & Hn').
    exists b, h', v'. by rewrite Hn'.
Qed.

(** X2: on a Conflict Target Builder, a chain of where-family calls of any
    length and any mix of the eight methods ([where], [whereRef],
    [orWhere], [orWhereRef], [whereExists], [whereNotExists],
    [orWhereExists], [orWhereNotExists]), all of whose arguments parse,
    returns a Conflict Target Builder whose descriptor is the receiver's
    except for the index predicate, which is the receiver's with the
    fragments joined onto it one after the other, in call order, each with
    the connective of its method. *)
Theorem X2_index_predicate_is_a_left_fold cs h this v frs :
  view h this = Some v → class v = OnConflictBuilderClass →
  mapM (parsed_fragment (context v)) cs = Some frs →
  ∃ b h' v',
    chain this cs h = (Ok b, h') ∧
    view h' b = Some v' ∧
    class v' = OnConflictBuilderClass ∧
    node v' = set_indexWhere (compose (indexWhere (node v)) frs) (node v) ∧
    indexWhere (node v') = compose (indexWhere (node v)) frs ∧
    columns (node v') = columns (node v) ∧
    constraint (node v') = constraint (node v) ∧
    indexExpression (node v') = indexExpression (node v) ∧
    updates (node v') = updates (node v) ∧
    updateWhere (node v') = updateWhere (node v) ∧
    doNothing (node v') = doNothing (node v).
Proof.
  intros Hv Hc Hfrs.
  destruct (index_predicate_fold cs h this v frs Hv Hc Hfrs)
    as (b & h' & v' & Hch & Hv' & Hc' & Hn').
  exists b, h', v'. rewrite Hn'. by split_and!.
Qed.

(** The descriptor a chain of where-family calls leaves on an Update Action
    Builder. *)
Lemma update_predicate_fold cs : ∀ h this v frs,
  view h this = Some v → class v = OnConflictUpdateBuilderClass →
  mapM (parsed_fragment (context v)) cs = Some frs →
  ∃ b h' v',
    chain this cs h = (Ok b, h') ∧
    view h' b = Some v' ∧
    class v' = OnConflictUpdateBuilderClass ∧
    node v' = set_updateWhere (compose (updateWhere (node v)) frs) (node v).
Proof.
  induction cs as [|c cs IH]; intros h this v frs Hv Hc Hfrs.
  - injection Hfrs as <-. exists this, h, v. cbn.
    by rewrite set_updateWhere_same.
  - cbn in Hfrs.
    destruct (parsed_fragment (context v) c) as [[cj f]|] eqn:Hf; [|done].
    destruct (mapM _ cs) as [frs'|] eqn:Hfrs'; [|done].
    cbn in Hfrs. injection Hfrs as <-. apply parsed_fragment_inv in Hf.
    cbn [chain].
    rewrite (bind_run _ _ _ _ _
               (update_where_family_run _ _ _ _ _ _ Hv Hc Hf)).
    set (n1 := set_updateWhere _ (node v)).
    destruct (IH _ _ _ frs'
                (view_derived h OnConflictUpdateBuilderClass n1 (context v))
                eq_refl Hfrs') as (b & h' & v' & -> & Hv' & Hc' & Hn').
    exists b, h', v'. by rewrite Hn'.
Qed.

(** X3: the same on an Update Action Builder, for the update predicate: the
    chain returns an Update Action Builder whose descriptor is the
    receiver's (target, index predicate and value mapping included) except
    for the update predicate, which is the receiver's with the fragments
    joined onto it in call order. *)
Theorem X3_update_predicate_is_a_left_fold cs h this v frs :
  view h this = Some v → class v = OnConflictUpdateBuilderClass →
  mapM (parsed_fragment (context v)) cs = Some frs →
  ∃ b h' v',
    chain this cs h = (Ok b, h') ∧
    view h' b = Some v' ∧
    class v' = OnConflictUpdateBuilderClass ∧
    node v' = set_updateWhere (compose (updateWhere (node v)) frs) (node v) ∧
    updateWhere (node v') = compose (updateWhere (node v)) frs ∧
    columns (node v') = columns (node v) ∧
    constraint (node v') = constraint (node v) ∧
    indexExpression (node v') = indexExpression (node v) ∧
    indexWhere (node v') = indexWhere (node v) ∧
    updates (node v') = updates (node v) ∧
    doNothing (node v') = doNothing (node v).
Proof.
  intros Hv Hc Hfrs.
  destruct (update_predicate_fold cs h this v frs Hv Hc Hfrs)
    as (b & h' & v' & Hch & Hv' & Hc' & Hn').
  exists b, h', v'. rewrite Hn'. by split_and!.
Qed.

(** X4: as long as the predicate a builder composes onto is absent, the
    connective of the method does not matter: each [or...] method returns
    what its AND counterpart returns, for all four pairs, on the Conflict
    Target Builder (index predicate) and on the Update Action Builder
    (update predicate) alike. *)
Theorem X4_first_connective_is_immaterial h this v :
  view h this = Some v → predicate_slot (class v) (node v) = None →
  (∀ args,
     invoke this (call_orWhere args) h = invoke this (call_where args) h) ∧
  (∀ lhs op rhs,
     invoke this (call_orWhereRef lhs op rhs) h =
       invoke this (call_whereRef lhs op rhs) h) ∧
  (∀ arg,
     invoke this (call_orWhereExists arg) h =
       invoke this (call_whereExists arg) h) ∧
  (∀ arg,
     invoke this (call_orWhereNotExists arg) h =
       invoke this (call_whereNotExists arg) h).
Proof.
  intros Hv Hs. split_and!; intros;
    rewrite !(invoke_transition _ _ _ _ Hv) by done;
    destruct (class v); cbn in Hs |- *; rewrite ?Hs; try done;
    repeat match goal with
           | |- context [match ?r with Ok _ => _ | Throw _ => _ end] =>
               destruct r
           end;
    done.
Qed.
(** ** The order of calls *)




(** ** Builders are values *)


(** X8: what a chain of calls returns depends on the class, the descriptor
    and the parse context of the builder it starts from, and on nothing
    else: started from two builders that agree on these, in whatever stores
    and wherever they are in them, the same chain ends with the same
    exception, or with builders of the same class over equal descriptors. *)
Theorem X8_equal_builders_chain_equally cs : ∀ h1 this1 v1 h2 this2 v2,
  view h1 this1 = Some v1 → view h2 this2 = Some v2 →
  class v1 = class v2 → node v1 = node v2 → context v1 = context v2 →
  observe (chain this1 cs h1) = observe (chain this2 cs h2).
Proof.
  induction cs as [|c cs IH];
    intros h1 this1 v1 h2 this2 v2 Hv1 Hv2 Hcls Hnode Hctx.
  - cbn. rewrite Hv1, Hv2. cbn. by rewrite Hcls, Hnode, Hctx.
  - rewrite (chain_step _ _ _ _ _ Hv1), (chain_step _ _ _ _ _ Hv2).
    rewrite <- Hcls, <- Hnode, <- Hctx.
    destruct (view_inv _ _ _ Hv1) as (_ & _ & _ & Hn1).
    destruct (view_inv _ _ _ Hv2) as (_ & _ & _ & Hn2).
    destruct (is_extraction c).
    + case_bool_decide; [done|].
      destruct (chain (node_loc v1) cs h1) as [r1 h1'] eqn:Hch1.
      destruct (chain (node_loc v2) cs h2) as [r2 h2'] eqn:Hch2.
      destruct (chain_node _ _ _ _ _ _ Hn1 Hch1) as [_ ->].
      by destruct (chain_node _ _ _ _ _ _ Hn2 Hch2) as [_ ->].
    + destruct (transition _ _ _ _) as [[[cls n]|e]|]; [|done..].
      by apply (IH _ _ _ _ _ _ (view_derived h1 cls n (context v1))
                  (view_derived h2 cls n (context v1))).
Qed.


Lemma observe_chain2 h this v c1 c2 :
  view h this = Some v →
  is_extraction c1 = false → is_extraction c2 = false →
  observe (chain this [c1; c2] h) =
    match transition (class v) (node v) (context v) c1 with
    | Some (Ok (cls1, n1)) =>
        match transition cls1 n1 (context v) c2 with
        | Some (Ok (cls2, n2)) => Ok (Some (cls2, n2, context v))
        | Some (Throw e) => Throw e
        | None => Throw (TypeError "is not a function")
        end
    | Some (Throw e) => Throw e
    | None => Throw (TypeError "is not a function")
    end.
Proof.
  intros Hv E1 E2. rewrite (chain_step _ _ _ _ _ Hv), E1.
  destruct (transition _ _ _ c1) as [[[cls1 n1]|e]|]; [|done..].
  rewrite (chain_step _ _ _ _ _ (view_derived h cls1 n1 (context v))), E2.
  cbn [class node context].
  destruct (transition _ _ _ c2) as [[[cls2 n2]|e]|]; [|done..].
  cbn [chain]. apply observe_derived.
Qed.

(** X9: on a Conflict Target Builder, two calls that write different keys
    of the descriptor (the column list, the constraint, the expression, the
    index predicate) can be made in either order: both orders end with the
    same exception or with a Conflict Target Builder over the same
    descriptor. *)
Theorem X9_calls_on_different_keys_commute h this v c1 c2 :
  view h this = Some v → class v = OnConflictBuilderClass →
  independent c1 c2 = true →
  observe (chain this [c1; c2] h) = observe (chain this [c2; c1] h).
Proof.
  intros Hv Hcls Hind.
  assert (is_extraction c1 = false ∧ is_extraction c2 = false) as [E1 E2]
    by (by destruct c1, c2).
  rewrite !(observe_chain2 _ _ _ _ _ Hv) by done. rewrite Hcls.
  destruct c1, c2; try (by vm_compute in Hind); clear; cbn;
    repeat match goal with
           | |- context [match ?r with Ok _ => _ | Throw _ => _ end] =>
               destruct r; cbn
           end;
    done.
Qed.
(** ** Frozen props *)

Lemma props_frozen_derived h cls n ctx :
  props_frozen h → props_frozen (derived h cls n ctx).
Proof.
  intros Hf l cls' p. unfold object_at, derived. rewrite lookup_app.
  destruct (h !! l) as [c|] eqn:Hl.
  - cbn. intros [= Hc]. specialize (Hf l cls' p). unfold object_at in Hf.
    rewrite Hl in Hf. specialize (Hf (f_equal Some Hc)).
    destruct (h !! p) as [cp|] eqn:Hp; [|done].
    by rewrite (lookup_app_l_Some _ _ _ _ Hp).
  - destruct (l - length h) as [|[|[|k]]]; cbn; try done.
    intros [= _ <-]. rewrite (lookup_app_r h) by lia.
    by replace (S (length h) - length h) with 1 by lia.
Qed.

(** X10: each of the three constructors freezes the props object it is
    given, so in a store where every builder holds a frozen props object,
    every chain of calls on a builder, whatever its outcome, ends in a store
    where every builder, old or new, holds a frozen props object. *)
Theorem X10_builders_hold_frozen_props cs : ∀ h this v r h',
  props_frozen h → view h this = Some v →
  chain this cs h = (r, h') →
  props_frozen h'.
Proof.
  induction cs as [|c cs IH]; intros h this v r h' Hf Hv Hch.
  - cbn in Hch. by injection Hch as _ <-.
  - rewrite (chain_step _ _ _ _ _ Hv) in Hch.
    destruct (view_inv _ _ _ Hv) as (_ & _ & _ & Hn).
    destruct (is_extraction c).
    + case_bool_decide; [by injection Hch as _ <-|].
      by destruct (chain_node _ _ _ _ _ _ Hn Hch) as [-> _].
    + destruct (transition _ _ _ _) as [[[cls n]|e]|];
        [|by injection Hch as _ <-..].
      eapply (IH _ _ _ _ _ (props_frozen_derived h cls n (context v) Hf)
                (view_derived h cls n (context v)) Hch).
Qed.
End Correctness.







(** * The theorems at work on concrete chains *)

Section Witnesses.
#[local] Existing Instance text_parsers.

Example fresh_store_view : view fresh_store fresh_builder = Some fresh_view.
Proof. reflexivity. Qed.

Example filtered_store_view :
  view filtered_store filtered_builder = Some filtered_view.
Proof. reflexivity. Qed.

Example targeted_store_view :
  view targeted_store targeted_builder = Some targeted_view.
Proof. reflexivity. Qed.

Example update_store_view :
  view update_store update_builder = Some update_view.
Proof. reflexivity. Qed.

(** The first example of the spec:
    [target().column("email").where("email","=","a@x.com").doNothing()]. *)
Example spec_example_doNothing :
  ∃ b h,
    chain fresh_builder
      [call_column "email"; call_where ["email"; "="; "a@x.com"];
       call_doNothing] fresh_store = (Ok b, h) ∧
    node <$> view h b =
      Some {| columns := Some [ColumnNode_create "email"];
              constraint := None; indexExpression := None;
              indexWhere := Some (FilterNode "email = a@x.com");
              updates := None; updateWhere := None;
              doNothing := Some true |}.
Proof. eexists _, _. split; reflexivity. Qed.

(** The second one: [target().constraint("people_pkey")
    .doUpdateSet({name:"n"}).whereRef("people.active","=","excluded.active")]. *)
Example spec_example_doUpdateSet :
  ∃ b h,
    chain fresh_builder
      [call_constraint "people_pkey"; call_doUpdateSet "name = n";
       call_whereRef "people.active" "=" "excluded.active"]
      fresh_store = (Ok b, h) ∧
    node <$> view h b =
      Some {| columns := None;
              constraint := Some (IdentifierNode_create "people_pkey");
              indexExpression := None; indexWhere := None;
              updates := Some ["name = n"];
              updateWhere :=
                Some (FilterNode "people.active = excluded.active");
              doNothing := None |}.
Proof. eexists _, _. split; reflexivity. Qed.
(** C1 as stated fails on a builder that already has an index predicate:
    on [target().where("q")] the chain [where("p1").orWhere("p2").where("p3")]
    returns a builder whose index predicate is [((q AND p1) OR p2) AND p3],
    not [(p1 OR p2) AND p3]. *)
Lemma C1_counterexample :
  view filtered_store filtered_builder = Some filtered_view ∧
  class filtered_view = OnConflictBuilderClass ∧
  parseWhereFilter no_context ["p1"] = Ok (FilterNode "p1") ∧
  parseWhereFilter no_context ["p2"] = Ok (FilterNode "p2") ∧
  parseWhereFilter no_context ["p3"] = Ok (FilterNode "p3") ∧
  (∃ b h',
     chain filtered_builder
       [call_where ["p1"]; call_orWhere ["p2"]; call_where ["p3"]]
       filtered_store = (Ok b, h') ∧
     indexWhere <$> (node <$> view h' b) =
       Some (Some (AndNode
                     (OrNode (AndNode (FilterNode "q") (FilterNode "p1"))
                        (FilterNode "p2"))
                     (FilterNode "p3")))) ∧
  ¬ ∃ b h' v',
      chain filtered_builder
        [call_where ["p1"]; call_orWhere ["p2"]; call_where ["p3"]]
        filtered_store = (Ok b, h') ∧
      view h' b = Some v' ∧
      indexWhere (node v') =
        Some (AndNode (OrNode (FilterNode "p1") (FilterNode "p2"))
                (FilterNode "p3")).
Proof.
  split_and!; try reflexivity.
  - eexists _, _. split; reflexivity.
  - intros (b & h' & v' & Hch & Hv & Hw).
    vm_compute in Hch. injection Hch as <- <-.
    vm_compute in Hv. injection Hv as <-.
    discriminate Hw.
Qed.

Lemma C1_where_chain_witness :
  ∃ b h' v',
    chain filtered_builder
      [call_where ["p1"]; call_orWhere ["p2"]; call_where ["p3"]]
      filtered_store = (Ok b, h') ∧
    view h' b = Some v' ∧
    class v' = OnConflictBuilderClass ∧
    indexWhere (node v') =
      Some (AndNode
              (OrNode
                 (Predicate_and (indexWhere (node filtered_view))
                    (FilterNode "p1"))
                 (FilterNode "p2"))
              (FilterNode "p3")) ∧
    (indexWhere (node filtered_view) = None →
     indexWhere (node v') =
       Some (AndNode (OrNode (FilterNode "p1") (FilterNode "p2"))
               (FilterNode "p3"))) ∧
    (∀ x y, indexWhere (node v') ≠ Some (OrNode x y)).
Proof.
  apply (C1_where_chain_composes_left_to_right
           filtered_store filtered_builder filtered_view
           ["p1"] ["p2"] ["p3"]); reflexivity.
Defined.

Lemma C2_first_predicate_witness :
  (∃ b h' v',
     OnConflictBuilder_where fresh_builder ["email"; "="; "a@x.com"]
       fresh_store = (Ok b, h') ∧
     view h' b = Some v' ∧
     indexWhere (node v') = Some (FilterNode "email = a@x.com") ∧
     node v' =
       set_indexWhere (Some (FilterNode "email = a@x.com")) (node fresh_view)) ∧
  (∃ b h' v',
     OnConflictBuilder_orWhere fresh_builder ["email"; "="; "a@x.com"]
       fresh_store = (Ok b, h') ∧
     view h' b = Some v' ∧
     indexWhere (node v') = Some (FilterNode "email = a@x.com") ∧
     node v' =
       set_indexWhere (Some (FilterNode "email = a@x.com")) (node fresh_view)).
Proof.
  apply (C2_first_predicate_is_stored_as_is fresh_store fresh_builder
           fresh_view ["email"; "="; "a@x.com"]); reflexivity.
Defined.

Lemma C5_update_predicates_witness :
  ∃ b h' v',
    invoke update_builder
      (call_orWhereRef "people.active" "=" "excluded.active") update_store
      = (Ok b, h') ∧
    view h' b = Some v' ∧
    class v' = OnConflictUpdateBuilderClass ∧
    updateWhere (node v') =
      Some (join false (updateWhere (node update_view))
              (FilterNode "people.active = excluded.active")) ∧
    columns (node v') = columns (node update_view) ∧
    constraint (node v') = constraint (node update_view) ∧
    indexExpression (node v') = indexExpression (node update_view) ∧
    indexWhere (node v') = indexWhere (node update_view) ∧
    updates (node v') = updates (node update_view) ∧
    doNothing (node v') = doNothing (node update_view).
Proof.
  apply (C5_update_predicates_touch_updateWhere_only update_store
           update_builder update_view); reflexivity.
Defined.

Lemma C3_calls_witness :
  (∀ l o, object_at update_store l = Some o →
     object_at (snd (invoke update_builder (call_where ["x"]) update_store)) l
       = Some o) ∧
  (∀ v, view update_store update_builder = Some v →
     view (snd (invoke update_builder (call_where ["x"]) update_store))
       update_builder = Some v ∧
     (is_Some (method (class v) (@call_where text_parsers ["x"])) →
      parses (context v) (@call_where text_parsers ["x"]) = true →
      ∃ b,
        fst (invoke update_builder (call_where ["x"]) update_store) = Ok b) ∧
     ∀ b, fst (invoke update_builder (call_where ["x"]) update_store) = Ok b →
       @call_where text_parsers ["x"] ≠ call_toOperationNode →
       b ≠ update_builder ∧ object_at update_store b = None ∧
       ∃ v',
         view (snd (invoke update_builder (call_where ["x"]) update_store)) b
           = Some v' ∧
         node_loc v' ≠ node_loc v ∧
         object_at update_store (node_loc v') = None) ∧
  (∀ u v b cs r2 h2,
     view update_store u = Some v → class v ≠ OnConflictBuilderClass →
     fst (invoke update_builder (call_where ["x"]) update_store) = Ok b →
     chain b cs (snd (invoke update_builder (call_where ["x"]) update_store))
       = (r2, h2) →
     invoke u call_toOperationNode update_store
       = (Ok (node_loc v), update_store) ∧
     node_at update_store (node_loc v) = Some (node v) ∧
     invoke u call_toOperationNode h2 = (Ok (node_loc v), h2) ∧
     node_at h2 (node_loc v) = Some (node v)).
Proof.
  apply (C3_calls_leave_the_receiver_untouched update_store update_builder
           (@call_where text_parsers ["x"])); reflexivity.
Defined.

Lemma C4_columns_witness :
  ∃ b h' v',
    chain targeted_builder
      [call_columns ["first_name"; "email"]; call_column "first_name"]
      targeted_store = (Ok b, h') ∧
    view h' b = Some v' ∧
    class v' = OnConflictBuilderClass ∧
    columns (node v') =
      Some (default [] (columns (node targeted_view)) ++
            map ColumnNode_create
              (supplied_names
                 [call_columns ["first_name"; "email"];
                  call_column "first_name"])).
Proof.
  apply (C4_columns_accumulate_in_call_order
           [@call_columns text_parsers ["first_name"; "email"];
            call_column "first_name"]
           targeted_store targeted_builder targeted_view); reflexivity.
Defined.

Lemma C10_column_witness :
  OnConflictBuilder_column targeted_builder "pic" targeted_store =
    OnConflictBuilder_columns targeted_builder ["pic"] targeted_store ∧
  (∃ b h' v',
     OnConflictBuilder_columns targeted_builder ["pic"] targeted_store
       = (Ok b, h') ∧
     OnConflictBuilder_column targeted_builder "pic" targeted_store
       = (Ok b, h') ∧
     view h' b = Some v' ∧
     class v' = OnConflictBuilderClass ∧
     columns (node v') =
       Some (default [] (columns (node targeted_view)) ++
             [ColumnNode_create "pic"]) ∧
     constraint (node v') = constraint (node targeted_view) ∧
     indexExpression (node v') = indexExpression (node targeted_view) ∧
     indexWhere (node v') = indexWhere (node targeted_view) ∧
     updates (node v') = updates (node targeted_view) ∧
     updateWhere (node v') = updateWhere (node targeted_view) ∧
     doNothing (node v') = doNothing (node targeted_view) ∧
     node v' =
       set_columns
         (Some (default [] (columns (node targeted_view)) ++
                [ColumnNode_create "pic"]))
         (node targeted_view)) ∧
  (∃ b h' v',
     OnConflictBuilder_columns targeted_builder [] targeted_store
       = (Ok b, h') ∧
     view h' b = Some v' ∧
     class v' = OnConflictBuilderClass ∧
     columns (node v') = Some (default [] (columns (node targeted_view))) ∧
     (columns (node targeted_view) = None → columns (node v') = Some []) ∧
     constraint (node v') = constraint (node targeted_view) ∧
     indexExpression (node v') = indexExpression (node targeted_view) ∧
     indexWhere (node v') = indexWhere (node targeted_view) ∧
     updates (node v') = updates (node targeted_view) ∧
     updateWhere (node v') = updateWhere (node targeted_view) ∧
     doNothing (node v') = doNothing (node targeted_view) ∧
     node v' =
       set_columns (Some (default [] (columns (node targeted_view))))
         (node targeted_view)).
Proof.
  apply (C10_column_is_columns_of_one targeted_store targeted_builder
           targeted_view "pic"); reflexivity.
Defined.

(** [columns([])] on a builder that has no column list: the list is there
    afterwards, and empty; [column] and [columns] on the same builder. *)
Example columns_of_nothing_creates_the_list :
  columns <$> (node <$> view
    (snd (OnConflictBuilder_columns fresh_builder [] fresh_store)) 5)
  = Some (Some []).
Proof. reflexivity. Qed.

Example column_appends_to_the_list :
  columns <$> (node <$> view
    (snd (OnConflictBuilder_column targeted_builder "pic" targeted_store)) 11)
  = Some (Some [ColumnNode_create "email"; ColumnNode_create "pic"]).
Proof. reflexivity. Qed.

Lemma C6_constraint_witness :
  (∀ name, ∃ b h' v',
     OnConflictBuilder_constraint targeted_builder name targeted_store
       = (Ok b, h') ∧
     view h' b = Some v' ∧
     class v' = OnConflictBuilderClass ∧
     constraint (node v') = Some (IdentifierNode_create name) ∧
     columns (node v') = columns (node targeted_view) ∧
     node v' =
       set_constraint (Some (IdentifierNode_create name))
         (node targeted_view)) ∧
  (∀ e, ∃ b h' v',
     OnConflictBuilder_expression targeted_builder e targeted_store
       = (Ok b, h') ∧
     view h' b = Some v' ∧
     class v' = OnConflictBuilderClass ∧
     indexExpression (node v') = Some (RawBuilder_toOperationNode e) ∧
     columns (node v') = columns (node targeted_view) ∧
     node v' =
       set_indexExpression (Some (RawBuilder_toOperationNode e))
         (node targeted_view)).
Proof.
  apply (C6_constraint_and_expression_replace_one_slot targeted_store
           targeted_builder targeted_view); reflexivity.
Defined.

Lemma C7_doUpdateSet_witness :
  ∃ b h' v',
    OnConflictBuilder_doUpdateSet targeted_builder "name = n" targeted_store
      = (Ok b, h') ∧
    view h' b = Some v' ∧
    class v' = OnConflictUpdateBuilderClass ∧
    action (node v') = Update ["name = n"] None ∧
    updates (node v') = Some ["name = n"] ∧
    updateWhere (node v') = None ∧
    columns (node v') = columns (node targeted_view) ∧
    constraint (node v') = constraint (node targeted_view) ∧
    indexExpression (node v') = indexExpression (node targeted_view) ∧
    indexWhere (node v') = indexWhere (node targeted_view).
Proof.
  apply (C7_doUpdateSet_sets_the_update_action targeted_store
           targeted_builder targeted_view "name = n" ["name = n"]);
    try reflexivity.
  split; reflexivity.
Defined.

Lemma C8_doNothing_witness :
  ∃ b h' v',
    OnConflictBuilder_doNothing targeted_builder targeted_store = (Ok b, h') ∧
    view h' b = Some v' ∧
    class v' = OnConflictDoNothingBuilderClass ∧
    node v' = set_doNothing (Some true) (node targeted_view) ∧
    action (node v') = Ignore ∧
    columns (node v') = columns (node targeted_view) ∧
    constraint (node v') = constraint (node targeted_view) ∧
    indexExpression (node v') = indexExpression (node targeted_view) ∧
    indexWhere (node v') = indexWhere (node targeted_view) ∧
    OnConflictDoNothingBuilder_toOperationNode b h' = (Ok (node_loc v'), h') ∧
    node_at h' (node_loc v') = Some (node v').
Proof.
  apply (C8_doNothing_sets_the_ignore_action targeted_store targeted_builder
           targeted_view); reflexivity.
Defined.

Lemma C9_terminal_builders_witness :
  (∀ d h1 c,
     invoke targeted_builder call_doNothing targeted_store = (Ok d, h1) →
     c ≠ call_toOperationNode →
     invoke d c h1 = (Throw (TypeError "is not a function"), h1)) ∧
  (∀ us u h1 c,
     invoke targeted_builder (call_doUpdateSet us) targeted_store
       = (Ok u, h1) →
     (where_family c = false → c ≠ call_toOperationNode →
      invoke u c h1 = (Throw (TypeError "is not a function"), h1)) ∧
     (∀ conj f, fragment (context targeted_view) c = Some (conj, Ok f) →
      ∃ b h2, invoke u c h1 = (Ok b, h2))).
Proof.
  apply (C9_terminal_builders_reject_further_chaining targeted_store
           targeted_builder targeted_view); reflexivity.
Defined.

(** The calls C9 speaks of, run: after [doNothing()] a [column] call throws,
    after [doUpdateSet] a [constraint] call throws and a [where] call
    returns. *)
Example rejected_after_doNothing :
  fst (chain targeted_builder [call_doNothing; call_column "pic"]
         targeted_store) = Throw (TypeError "is not a function").
Proof. reflexivity. Qed.

Example rejected_after_doUpdateSet :
  fst (chain targeted_builder
         [call_doUpdateSet "name = n"; call_constraint "people_pkey"]
         targeted_store) = Throw (TypeError "is not a function").
Proof. reflexivity. Qed.

Example accepted_after_doUpdateSet :
  fst (chain targeted_builder
         [call_doUpdateSet "name = n"; call_where ["a"; "="; "1"]]
         targeted_store) = Ok 14.
Proof. reflexivity. Qed.

(** A malformed filter is the parser's own error, and the store is as it
    was. *)
Example malformed_filter :
  invoke fresh_builder (call_where []) fresh_store =
    (Throw (Error "invalid filter"), fresh_store).
Proof. reflexivity. Qed.
(** ** The further properties on concrete chains *)

Example mixed_store_view : view mixed_store mixed_builder = Some mixed_view.
Proof. reflexivity. Qed.

Example second_store_view :
  view second_store second_builder = Some second_view.
Proof. reflexivity. Qed.

Example fresh_store_frozen : props_frozen fresh_store.
Proof.
  intros [|[|[|l]]] cls p Ho; try discriminate Ho. by injection Ho as _ <-.
Qed.


(** The three failures, run: the await guard on each class, a malformed
    filter, a method the class does not define. *)
Example then_on_the_target_builder :
  send fresh_builder member_then fresh_store =
    (Throw (Error "don't await OnConflictBuilder instances."), fresh_store).
Proof. reflexivity. Qed.

Example then_on_the_update_builder :
  send update_builder member_then update_store =
    (Throw (Error "don't await OnConflictUpdateBuilder instances."),
     update_store).
Proof. reflexivity. Qed.

Example then_on_the_doNothing_builder :
  fst ((invoke targeted_builder call_doNothing
         ≫= λ b, send b member_then) targeted_store)
  = Throw (Error "don't await OnConflictDoNothingBuilder instances.").
Proof. reflexivity. Qed.

Example parser_error_passes_through :
  send fresh_builder (member_method (call_orWhere [])) fresh_store =
    (Throw (Error "invalid filter"), fresh_store).
Proof. reflexivity. Qed.

Example undefined_method_on_the_update_builder :
  send update_builder (member_method (call_column "pic")) update_store =
    (Throw (TypeError "is not a function"), update_store).
Proof. reflexivity. Qed.

Lemma X2_index_predicate_witness :
  ∃ b h' v',
    chain filtered_builder three_filters filtered_store = (Ok b, h') ∧
    view h' b = Some v' ∧
    class v' = OnConflictBuilderClass ∧
    node v' =
      set_indexWhere
        (compose (indexWhere (node filtered_view)) three_fragments)
        (node filtered_view) ∧
    indexWhere (node v') = compose (indexWhere (node filtered_view)) three_fragments ∧
    columns (node v') = columns (node filtered_view) ∧
    constraint (node v') = constraint (node filtered_view) ∧
    indexExpression (node v') = indexExpression (node filtered_view) ∧
    updates (node v') = updates (node filtered_view) ∧
    updateWhere (node v') = updateWhere (node filtered_view) ∧
    doNothing (node v') = doNothing (node filtered_view).
Proof.
  apply (X2_index_predicate_is_a_left_fold three_filters filtered_store
           filtered_builder filtered_view three_fragments); reflexivity.
Defined.

Lemma X3_update_predicate_witness :
  ∃ b h' v',
    chain mixed_builder three_filters mixed_store = (Ok b, h') ∧
    view h' b = Some v' ∧
    class v' = OnConflictUpdateBuilderClass ∧
    node v' =
      set_updateWhere
        (compose (updateWhere (node mixed_view)) three_fragments)
        (node mixed_view) ∧
    updateWhere (node v') = compose (updateWhere (node mixed_view)) three_fragments ∧
    columns (node v') = columns (node mixed_view) ∧
    constraint (node v') = constraint (node mixed_view) ∧
    indexExpression (node v') = indexExpression (node mixed_view) ∧
    indexWhere (node v') = indexWhere (node mixed_view) ∧
    updates (node v') = updates (node mixed_view) ∧
    doNothing (node v') = doNothing (node mixed_view).
Proof.
  apply (X3_update_predicate_is_a_left_fold three_filters mixed_store
           mixed_builder mixed_view three_fragments); reflexivity.
Defined.

Lemma X4_connective_witness :
  (∀ args,
     invoke update_builder (call_orWhere args) update_store =
       invoke update_builder (call_where args) update_store) ∧
  (∀ lhs op rhs,
     invoke update_builder (call_orWhereRef lhs op rhs) update_store =
       invoke update_builder (call_whereRef lhs op rhs) update_store) ∧
  (∀ arg,
     invoke update_builder (call_orWhereExists arg) update_store =
       invoke update_builder (call_whereExists arg) update_store) ∧
  (∀ arg,
     invoke update_builder (call_orWhereNotExists arg) update_store =
       invoke update_builder (call_whereNotExists arg) update_store).
Proof.
  apply (X4_first_connective_is_immaterial update_store update_builder
           update_view); reflexivity.
Defined.

Lemma X5_parse_context_witness : context mixed_view = context fresh_view.
Proof.
  apply (X5_parse_context_is_handed_down mixed_chain fresh_store
           fresh_builder fresh_view mixed_builder mixed_store mixed_view);
    reflexivity.
Defined.


Lemma X7_class_check_witness :
  ∃ message,
    OnConflictUpdateBuilder_where fresh_builder ["a"] fresh_store =
      (Throw (TypeError message), fresh_store).
Proof.
  apply (X7_methods_check_the_class_of_this OnConflictUpdateBuilderClass
           (@call_where text_parsers ["a"])
           (λ this, @OnConflictUpdateBuilder_where text_parsers this ["a"])
           fresh_store fresh_builder fresh_view); [reflexivity..|done].
Defined.

Lemma X8_equal_builders_witness :
  observe (chain fresh_builder mixed_chain fresh_store) =
    observe (chain second_builder mixed_chain second_store).
Proof.
  apply (X8_equal_builders_chain_equally mixed_chain fresh_store
           fresh_builder fresh_view second_store second_builder second_view);
    reflexivity.
Defined.

Lemma X9_commute_witness :
  observe (chain targeted_builder
             [call_columns ["pic"]; call_orWhereRef "a" "<" "b"]
             targeted_store) =
    observe (chain targeted_builder
               [call_orWhereRef "a" "<" "b"; call_columns ["pic"]]
               targeted_store).
Proof.
  apply (X9_calls_on_different_keys_commute targeted_store targeted_builder
           targeted_view (@call_columns text_parsers ["pic"])
           (@call_orWhereRef text_parsers "a" "<" "b")); reflexivity.
Defined.

Lemma X10_frozen_props_witness :
  props_frozen (snd (chain fresh_builder mixed_chain fresh_store)).
Proof.
  apply (X10_builders_hold_frozen_props mixed_chain fresh_store
           fresh_builder fresh_view
           (fst (chain fresh_builder mixed_chain fresh_store)));
    [apply fresh_store_frozen|reflexivity..].
Defined.

Lemma X11_class_action_witness :
  action_of_class (class mixed_view) (node mixed_view).
Proof.
  apply (X11_class_tells_the_action mixed_chain fresh_store fresh_builder
           fresh_view mixed_builder mixed_store mixed_view);
    [reflexivity|split; reflexivity|reflexivity..].
Defined.

Lemma X12_extraction_witness :
  (class mixed_view = OnConflictBuilderClass →
   invoke mixed_builder call_toOperationNode mixed_store =
     (Throw (TypeError "is not a function"), mixed_store)) ∧
  (class mixed_view ≠ OnConflictBuilderClass →
   ∃ n, invoke mixed_builder call_toOperationNode mixed_store
          = (Ok n, mixed_store) ∧
        node_at mixed_store n = Some (node mixed_view) ∧
        chain mixed_builder [call_toOperationNode] mixed_store
          = (Ok n, mixed_store)).
Proof.
  apply (X12_extraction_from_terminal_builders_only mixed_store
           mixed_builder mixed_view); reflexivity.
Defined.


(** What the two sides of X9 and X13 come to. *)
Example commuted_descriptor :
  observe (chain targeted_builder
             [call_orWhereRef "a" "<" "b"; call_columns ["pic"]]
             targeted_store) =
    Ok (Some (OnConflictBuilderClass,
              {| columns :=
                   Some [ColumnNode_create "email"; ColumnNode_create "pic"];
                 constraint := Some (IdentifierNode_create "people_pkey");
                 indexExpression := None;
                 indexWhere := Some (FilterNode "a < b");
                 updates := None; updateWhere := None; doNothing := None |},
              no_context)).
Proof. reflexivity. Qed.

Example extraction_before_a_terminal_call :
  fst (chain fresh_builder [call_column "email"; call_toOperationNode]
         fresh_store) = Throw (TypeError "is not a function").
Proof. reflexivity. Qed.
End Witnesses.
